(** * BreakpointWidget: a model of the debugger's breakpoint panel

    Shallow embedding of [Source/Core/DolphinQt/Debugger/BreakpointWidget.cpp].
    The widget forwards user edits to two registries owned by the emulated
    CPU (instruction breakpoints and memory checks), emits the
    [BreakpointsChanged] signal and redraws its table.

    The registries, the condition-expression parser, the ini file and Qt's
    number parsing are collaborators of the widget; they are gathered in the
    class [Collaborators] or modelled in the modules [BreakPoints],
    [MemChecks] and [IniFile] below. *)

From stdpp Require Import base decidable option numbers list gmap strings.

Local Open Scope Z_scope.

(** ** Table columns ([enum TableColumns]); [edit] arguments are plain [int]s.

    Addresses are [u32]s, here integers: the widget performs no arithmetic on
    them, so no wrap-around is ever taken. *)

Definition ENABLED_COLUMN : Z := 0.
Definition TYPE_COLUMN : Z := 1.
Definition SYMBOL_COLUMN : Z := 2.
Definition ADDRESS_COLUMN : Z := 3.
Definition END_ADDRESS_COLUMN : Z := 4.
Definition BREAK_COLUMN : Z := 5.
Definition LOG_COLUMN : Z := 6.
Definition READ_COLUMN : Z := 7.
Definition WRITE_COLUMN : Z := 8.
Definition CONDITION_COLUMN : Z := 9.

(** ** The two record types the widget fills in *)

Module TBreakPoint.
Record t {Expression : Type} : Type := mk {
    address : Z;
    is_enabled : bool;
    is_temporary : bool;
    log_on_hit : bool;
    break_on_hit : bool;
    condition : option Expression;
  }.
Global Arguments t : clear implicits.
Global Arguments mk {Expression}.

Section Setters.
Context {Expression : Type}.
Implicit Type bp : t Expression.

Definition set_address (v : Z) bp : t Expression :=
  mk v (is_enabled bp) (is_temporary bp) (log_on_hit bp) (break_on_hit bp) (condition bp).
Definition set_is_enabled (v : bool) bp : t Expression :=
  mk (address bp) v (is_temporary bp) (log_on_hit bp) (break_on_hit bp) (condition bp).
Definition set_is_temporary (v : bool) bp : t Expression :=
  mk (address bp) (is_enabled bp) v (log_on_hit bp) (break_on_hit bp) (condition bp).
Definition set_log_on_hit (v : bool) bp : t Expression :=
  mk (address bp) (is_enabled bp) (is_temporary bp) v (break_on_hit bp) (condition bp).
Definition set_break_on_hit (v : bool) bp : t Expression :=
  mk (address bp) (is_enabled bp) (is_temporary bp) (log_on_hit bp) v (condition bp).
Definition set_condition (v : option Expression) bp : t Expression :=
  mk (address bp) (is_enabled bp) (is_temporary bp) (log_on_hit bp) (break_on_hit bp) v.
End Setters.
End TBreakPoint.

Module TMemCheck.
Record t {Expression : Type} : Type := mk {
    start_address : Z;
    end_address : Z;
    is_enabled : bool;
    is_ranged : bool;
    is_break_on_read : bool;
    is_break_on_write : bool;
    log_on_hit : bool;
    break_on_hit : bool;
    condition : option Expression;
  }.
Global Arguments t : clear implicits.
Global Arguments mk {Expression}.

Section Setters.
Context {Expression : Type}.
Implicit Type mc : t Expression.

Definition set_start_address (v : Z) mc : t Expression :=
  mk v (end_address mc) (is_enabled mc) (is_ranged mc) (is_break_on_read mc)
     (is_break_on_write mc) (log_on_hit mc) (break_on_hit mc) (condition mc).
Definition set_end_address (v : Z) mc : t Expression :=
  mk (start_address mc) v (is_enabled mc) (is_ranged mc) (is_break_on_read mc)
     (is_break_on_write mc) (log_on_hit mc) (break_on_hit mc) (condition mc).
Definition set_is_enabled (v : bool) mc : t Expression :=
  mk (start_address mc) (end_address mc) v (is_ranged mc) (is_break_on_read mc)
     (is_break_on_write mc) (log_on_hit mc) (break_on_hit mc) (condition mc).
Definition set_is_ranged (v : bool) mc : t Expression :=
  mk (start_address mc) (end_address mc) (is_enabled mc) v (is_break_on_read mc)
     (is_break_on_write mc) (log_on_hit mc) (break_on_hit mc) (condition mc).
Definition set_is_break_on_read (v : bool) mc : t Expression :=
  mk (start_address mc) (end_address mc) (is_enabled mc) (is_ranged mc) v
     (is_break_on_write mc) (log_on_hit mc) (break_on_hit mc) (condition mc).
Definition set_is_break_on_write (v : bool) mc : t Expression :=
  mk (start_address mc) (end_address mc) (is_enabled mc) (is_ranged mc)
     (is_break_on_read mc) v (log_on_hit mc) (break_on_hit mc) (condition mc).
Definition set_log_on_hit (v : bool) mc : t Expression :=
  mk (start_address mc) (end_address mc) (is_enabled mc) (is_ranged mc)
     (is_break_on_read mc) (is_break_on_write mc) v (break_on_hit mc) (condition mc).
Definition set_break_on_hit (v : bool) mc : t Expression :=
  mk (start_address mc) (end_address mc) (is_enabled mc) (is_ranged mc)
     (is_break_on_read mc) (is_break_on_write mc) (log_on_hit mc) v (condition mc).
Definition set_condition (v : option Expression) mc : t Expression :=
  mk (start_address mc) (end_address mc) (is_enabled mc) (is_ranged mc)
     (is_break_on_read mc) (is_break_on_write mc) (log_on_hit mc) (break_on_hit mc) v.
End Setters.

(** The invariant of the data model: a watch is ranged exactly when its two
    addresses differ. *)
Definition ranged_ok {Expression} (mc : t Expression) : Prop :=
  is_ranged mc = false ↔ start_address mc = end_address mc.
End TMemCheck.

(** ** The instruction-breakpoint registry *)

Module BreakPoints.
Section Store.
Context {Expression : Type}.
Abbreviation TBreakPoint := (TBreakPoint.t Expression).

(** Modelled from the spec: the registry [BreakPoints] of
    [Core/PowerPC/BreakPoints.h] is not part of the sources at hand.  It
    is an ordered sequence of breakpoints (insertion order), unique by
    address. *)
Definition at_address (a : Z) (bp : TBreakPoint) : Prop :=
  TBreakPoint.address bp = a.

Global Instance at_address_dec a bp : Decision (at_address a bp) :=
  decide (TBreakPoint.address bp = a).

(** Modelled from the spec: [Get(address) -> optional<Breakpoint>]; the
    widget calls it [GetBreakpoint] and receives a null pointer for an
    absent entry. *)
Definition GetBreakpoint (a : Z) (st : list TBreakPoint) : option TBreakPoint :=
  snd <$> list_find (at_address a) st.

(** Modelled from the spec: [Remove(address)], a no-op if absent. *)
Definition Remove (a : Z) (st : list TBreakPoint) : list TBreakPoint :=
  filter (λ bp, ¬ at_address a bp) st.

(** Modelled from the spec: [Add(bp)] is a replace-by-address that removes
    any prior entry at the same address first; the new entry is the last
    one inserted. *)
Definition Add (bp : TBreakPoint) (st : list TBreakPoint) : list TBreakPoint :=
  Remove (TBreakPoint.address bp) st ++ [bp].

(** Modelled from the spec: [ToggleEnabled(address)] flips [is_enabled]
    and is a no-op if absent; the widget calls it [ToggleBreakPoint]. *)
Definition ToggleBreakPoint (a : Z) (st : list TBreakPoint) : list TBreakPoint :=
  (λ bp, if decide (at_address a bp)
         then TBreakPoint.set_is_enabled (negb (TBreakPoint.is_enabled bp)) bp
         else bp) <$> st.

(** Modelled from the spec: [Clear()]. *)
Definition Clear (st : list TBreakPoint) : list TBreakPoint := [].

(** Number of entries at an address. *)
Definition count (a : Z) (st : list TBreakPoint) : nat :=
  length (filter (at_address a) st).

(** Unique by address: at most one entry at each address. *)
Definition wf (st : list TBreakPoint) : Prop :=
  ∀ a, (count a st ≤ 1)%nat.
End Store.
End BreakPoints.

(** ** The memory-check registry *)

Module MemChecks.
Section Store.
Context {Expression : Type}.
Abbreviation TMemCheck := (TMemCheck.t Expression).

(** Modelled from the spec: the registry [MemChecks] of
    [Core/PowerPC/BreakPoints.h] is not part of the sources at hand.  It
    is an ordered sequence of watches keyed by [start_address]. *)
Definition at_address (a : Z) (mc : TMemCheck) : Prop :=
  TMemCheck.start_address mc = a.

Global Instance at_address_dec a mc : Decision (at_address a mc) :=
  decide (TMemCheck.start_address mc = a).

(** Modelled from the spec: [Get(address)], keyed by [start_address]. *)
Definition GetMemCheck (a : Z) (st : list TMemCheck) : option TMemCheck :=
  snd <$> list_find (at_address a) st.

(** Modelled from the spec: [Remove(address)], a no-op if absent. *)
Definition Remove (a : Z) (st : list TMemCheck) : list TMemCheck :=
  filter (λ mc, ¬ at_address a mc) st.

(** Modelled from the spec: [Add] is idempotent by [start_address]: an
    existing entry with that key is replaced in place, otherwise the
    watch is appended. *)
Fixpoint Add (mc : TMemCheck) (st : list TMemCheck) : list TMemCheck :=
  match st with
  | [] => [mc]
  | x :: rest =>
      if decide (at_address (TMemCheck.start_address mc) x)
      then mc :: rest
      else x :: Add mc rest
  end.

(** Modelled from the spec: [ToggleEnabled(address)]. *)
Definition ToggleBreakPoint (a : Z) (st : list TMemCheck) : list TMemCheck :=
  (λ mc, if decide (at_address a mc)
         then TMemCheck.set_is_enabled (negb (TMemCheck.is_enabled mc)) mc
         else mc) <$> st.

(** Modelled from the spec: [Clear()]. *)
Definition Clear (st : list TMemCheck) : list TMemCheck := [].

Definition count (a : Z) (st : list TMemCheck) : nat :=
  length (filter (at_address a) st).

(** Keyed by [start_address]: at most one entry for each key. *)
Definition wf (st : list TMemCheck) : Prop :=
  ∀ a, (count a st ≤ 1)%nat.
End Store.
End MemChecks.

(** ** Textual persistence of the registries and the per-game ini file *)

Module IniFile.
(** Modelled from the spec: [Common::IniFile] is not part of the sources at
    hand.  A configuration file holds line-lists under section names. *)
Abbreviation t := (gmap string (list string)).

(** Modelled from the spec: [Load] reports a missing file by returning
    [false] and leaves the object without sections. *)
Definition Load (disk : option t) : bool * t :=
  match disk with
  | Some file => (true, file)
  | None => (false, ∅)
  end.

(** Modelled from the spec: [GetLines] reports a missing section by returning
    [false], here [None]. *)
Definition GetLines (section : string) (ini : t) : option (list string) :=
  ini !! section.

(** Modelled from the spec: [SetLines] stores a line-list under a section
    name, replacing the section's previous lines. *)
Definition SetLines (section : string) (lines : list string) (ini : t) : t :=
  <[section := lines]> ini.

(** Modelled from the spec: [Save] writes the sections to the file. *)
Definition Save (ini : t) : option t := Some ini.
End IniFile.

(** ** Collaborators of the widget

    Code the widget calls and whose definition lies outside the file: the
    condition parser [Expression], Qt's [QString::toUInt(&ok, 16)] (here
    [None] when [ok] is false), the default-constructed records
    ([TBreakPoint bp;] and [TMemCheck check;], whose member initialisers
    are in a header) and the line format of the persisted registries. *)

Class Collaborators : Type := {
  Expression : Type;
  TryParse : string → option Expression;
  GetText : Expression → string;
  toUInt : string → option Z;
  new_TBreakPoint : TBreakPoint.t Expression;
  new_TMemCheck : TMemCheck.t Expression;
  bp_to_line : TBreakPoint.t Expression → string;
  bp_of_line : string → option (TBreakPoint.t Expression);
  mc_to_line : TMemCheck.t Expression → string;
  mc_of_line : string → option (TMemCheck.t Expression);
}.

Section Persistence.
Context `{Collaborators}.

(** Modelled from the spec: [Serialize() -> sequence<string>], one breakpoint
    per line; the registry calls it [GetStrings]. *)
Definition BreakPoints_GetStrings (st : list (TBreakPoint.t Expression)) : list string :=
  bp_to_line <$> st.

(** Modelled from the spec: [Deserialize(sequence<string>)], one breakpoint
    per line, each added in turn; the registry calls it [AddFromStrings]. *)
Definition BreakPoints_AddFromStrings (lines : list string)
    (st : list (TBreakPoint.t Expression)) : list (TBreakPoint.t Expression) :=
  foldl (λ acc line, from_option (λ bp, BreakPoints.Add bp acc) acc (bp_of_line line))
        st lines.

(** Modelled from the spec: the five-argument [Add] of the breakpoint
    registry builds an enabled entry from its arguments and adds it. *)
Definition BreakPoints_Add5 (addr : Z) (temp break_on_hit log_on_hit : bool)
    (condition : option Expression)
    (st : list (TBreakPoint.t Expression)) : list (TBreakPoint.t Expression) :=
  BreakPoints.Add (TBreakPoint.mk addr true temp log_on_hit break_on_hit condition) st.

(** Modelled from the spec: [Serialize] of the memory-check registry. *)
Definition MemChecks_GetStrings (st : list (TMemCheck.t Expression)) : list string :=
  mc_to_line <$> st.

(** Modelled from the spec: [Deserialize] of the memory-check registry. *)
Definition MemChecks_AddFromStrings (lines : list string)
    (st : list (TMemCheck.t Expression)) : list (TMemCheck.t Expression) :=
  foldl (λ acc line, from_option (λ mc, MemChecks.Add mc acc) acc (mc_of_line line))
        st lines.
End Persistence.

(** ** The world the widget acts on *)

Inductive Store : Type := BreakPointsStore | MemChecksStore.

(** The mutating member functions of a registry the widget calls. *)
Inductive Method : Type :=
| M_Add
| M_Remove
| M_ToggleBreakPoint
| M_Clear
| M_AddFromStrings.

(** What a member function of the widget does besides computing: calls of
    mutating member functions of a registry, the signal it emits, redraws of
    its table and the write of the ini file, in program order. *)
Inductive Event : Type :=
| Mutated (s : Store) (m : Method)
| Emit_BreakpointsChanged
| Call_Update
| Table_setRowCount0
| Ini_Save.

Global Instance Store_eq_dec : EqDecision Store.
Proof. solve_decision. Defined.

Global Instance Method_eq_dec : EqDecision Method.
Proof. solve_decision. Defined.

Global Instance Event_eq_dec : EqDecision Event.
Proof. solve_decision. Defined.

(** The events a user of the panel can see: the signal (other views refresh
    on it) and the redraws. *)
Definition user_visible (e : Event) : bool :=
  match e with
  | Emit_BreakpointsChanged | Call_Update | Table_setRowCount0 => true
  | Mutated _ _ | Ini_Save => false
  end.

Record World `{Collaborators} : Type := mkWorld {
  breakpoints : list (TBreakPoint.t Expression);
  memchecks : list (TMemCheck.t Expression);
  game_ini : option IniFile.t;
  trace : list Event;
}.

(** A member function either returns, or dereferences a null pointer. *)
Inductive Outcome `{Collaborators} : Type :=
| Returned (w : World)
| NullDereference.

(** The item handed to a click or context-menu handler: its column and the
    data [Update] attached to the first item of its row. *)
Record QTableWidgetItem : Type := mkItem {
  column : Z;
  ADDRESS_ROLE : Z;
  IS_MEMCHECK_ROLE : bool;
}.

(** ** The widget's member functions *)

Section Widget.
Context `{Collaborators}.

(** A call of a mutating member function of [GetBreakPoints()]. *)
Definition on_breakpoints (m : Method)
    (f : list (TBreakPoint.t Expression) → list (TBreakPoint.t Expression))
    (w : World) : World :=
  mkWorld _ (f (breakpoints w)) (memchecks w) (game_ini w)
          (trace w ++ [Mutated BreakPointsStore m]).

(** A call of a mutating member function of [GetMemChecks()].  The
    [QSignalBlocker] around such calls blocks the signals of [Settings]; the
    widget's own signal is not affected by it. *)
Definition on_memchecks (m : Method)
    (f : list (TMemCheck.t Expression) → list (TMemCheck.t Expression))
    (w : World) : World :=
  mkWorld _ (breakpoints w) (f (memchecks w)) (game_ini w)
          (trace w ++ [Mutated MemChecksStore m]).

Definition log (e : Event) (w : World) : World :=
  mkWorld _ (breakpoints w) (memchecks w) (game_ini w) (trace w ++ [e]).

(** [emit BreakpointsChanged();] *)
Definition emit_BreakpointsChanged : World → World := log Emit_BreakpointsChanged.

(** [Update();] the rows are rebuilt from the registries when the panel is
    visible. *)
Definition Update : World → World := log Call_Update.

(** [!condition.isEmpty() ? Expression::TryParse(...) : std::nullopt] *)
Definition parse_condition (condition : string) : option Expression :=
  if decide (condition = ""%string) then None else TryParse condition.

(** The condition of an edited entry: parsed from the new text when the
    condition column is edited, parsed again from the old text when another
    column is edited and a condition is present, otherwise left as the
    default-constructed record has it. *)
Definition edited_condition (edit : Z) (string : option string)
    (old_condition dflt : option Expression) : option Expression :=
  match string with
  | Some s =>
      if decide (edit = CONDITION_COLUMN) then TryParse s
      else match old_condition with
           | Some c => TryParse (GetText c)
           | None => dflt
           end
  | None =>
      match old_condition with
      | Some c => if decide (edit = CONDITION_COLUMN) then dflt else TryParse (GetText c)
      | None => dflt
      end
  end.

(** [bool == edit ? !old : old] *)
Definition flip_if (edit col : Z) (old : bool) : bool :=
  if decide (edit = col) then negb old else old.

Definition EditBreakpoint (address : Z) (edit : Z) (string : option string)
    (w : World) : Outcome :=
  match BreakPoints.GetBreakpoint address (breakpoints w) with
  | None => NullDereference
  | Some old_bp =>
      let bp := new_TBreakPoint in
      let bp := TBreakPoint.set_is_enabled
                  (flip_if edit ENABLED_COLUMN (TBreakPoint.is_enabled old_bp)) bp in
      let bp := TBreakPoint.set_log_on_hit
                  (flip_if edit LOG_COLUMN (TBreakPoint.log_on_hit old_bp)) bp in
      let bp := TBreakPoint.set_break_on_hit
                  (flip_if edit BREAK_COLUMN (TBreakPoint.break_on_hit old_bp)) bp in
      let new_address : option Z :=
        match string with
        | Some s => if decide (edit = ADDRESS_COLUMN) then toUInt s else Some address
        | None => Some address
        end in
      match new_address with
      | None => Returned w
      | Some a =>
          let bp := TBreakPoint.set_address a bp in
          let bp := TBreakPoint.set_condition
                      (edited_condition edit string (TBreakPoint.condition old_bp)
                                        (TBreakPoint.condition bp)) bp in
          let w := on_breakpoints M_Remove (BreakPoints.Remove address) w in
          let w := on_breakpoints M_Add (BreakPoints.Add bp) w in
          let w := emit_BreakpointsChanged w in
          Returned (Update w)
      end
  end.

Definition AddBP5 (addr : Z) (temp break_on_hit log_on_hit : bool) (condition : string)
    (w : World) : Outcome :=
  let w := on_breakpoints M_Add
             (BreakPoints_Add5 addr temp break_on_hit log_on_hit (parse_condition condition))
             w in
  let w := emit_BreakpointsChanged w in
  Returned (Update w).

Definition AddBP (addr : Z) (w : World) : Outcome :=
  AddBP5 addr false true true "" w.

Definition AddAddressMBP (addr : Z) (on_read on_write do_log do_break : bool)
    (condition : string) (w : World) : Outcome :=
  let check := new_TMemCheck in
  let check := TMemCheck.set_start_address addr check in
  let check := TMemCheck.set_end_address addr check in
  let check := TMemCheck.set_is_ranged false check in
  let check := TMemCheck.set_is_break_on_read on_read check in
  let check := TMemCheck.set_is_break_on_write on_write check in
  let check := TMemCheck.set_log_on_hit do_log check in
  let check := TMemCheck.set_break_on_hit do_break check in
  let check := TMemCheck.set_condition (parse_condition condition) check in
  let w := on_memchecks M_Add (MemChecks.Add check) w in
  let w := emit_BreakpointsChanged w in
  Returned (Update w).

Definition AddRangedMBP (from to : Z) (on_read on_write do_log do_break : bool)
    (condition : string) (w : World) : Outcome :=
  let check := new_TMemCheck in
  let check := TMemCheck.set_start_address from check in
  let check := TMemCheck.set_end_address to check in
  let check := TMemCheck.set_is_ranged true check in
  let check := TMemCheck.set_is_break_on_read on_read check in
  let check := TMemCheck.set_is_break_on_write on_write check in
  let check := TMemCheck.set_log_on_hit do_log check in
  let check := TMemCheck.set_break_on_hit do_break check in
  let check := TMemCheck.set_condition (parse_condition condition) check in
  let w := on_memchecks M_Add (MemChecks.Add check) w in
  let w := emit_BreakpointsChanged w in
  Returned (Update w).

(** The address block of [EditMBP]: [None] is the early return on [!ok],
    otherwise the start address, the end address and [address_changed]. *)
Definition EditMBP_addresses (edit : Z) (string : option string)
    (old_start old_end : Z) : option (Z * Z * bool) :=
  match string with
  | Some s =>
      if decide (edit = ADDRESS_COLUMN ∨ edit = END_ADDRESS_COLUMN) then
        match toUInt s with
        | None => None
        | Some new_address =>
            if decide (edit = ADDRESS_COLUMN)
            then Some (new_address, old_end, true)
            else Some (old_start, new_address, false)
        end
      else Some (old_start, old_end, false)
  | None => Some (old_start, old_end, false)
  end.

Definition EditMBP (address : Z) (edit : Z) (string : option string)
    (w : World) : Outcome :=
  match MemChecks.GetMemCheck address (memchecks w) with
  | None => NullDereference
  | Some old_mbp =>
      let mbp := new_TMemCheck in
      let mbp := TMemCheck.set_is_enabled
                   (flip_if edit ENABLED_COLUMN (TMemCheck.is_enabled old_mbp)) mbp in
      let mbp := TMemCheck.set_log_on_hit
                   (flip_if edit LOG_COLUMN (TMemCheck.log_on_hit old_mbp)) mbp in
      let mbp := TMemCheck.set_break_on_hit
                   (flip_if edit BREAK_COLUMN (TMemCheck.break_on_hit old_mbp)) mbp in
      let mbp := TMemCheck.set_is_break_on_read
                   (flip_if edit READ_COLUMN (TMemCheck.is_break_on_read old_mbp)) mbp in
      let mbp := TMemCheck.set_is_break_on_write
                   (flip_if edit WRITE_COLUMN (TMemCheck.is_break_on_write old_mbp)) mbp in
      match EditMBP_addresses edit string (TMemCheck.start_address old_mbp)
                              (TMemCheck.end_address old_mbp) with
      | None => Returned w
      | Some (start_address, end_address, address_changed) =>
          let mbp := TMemCheck.set_start_address start_address mbp in
          let mbp := TMemCheck.set_end_address end_address mbp in
          let mbp := TMemCheck.set_is_ranged
                       (bool_decide (TMemCheck.start_address mbp ≠ TMemCheck.end_address mbp))
                       mbp in
          let mbp := TMemCheck.set_condition
                       (edited_condition edit string (TMemCheck.condition old_mbp)
                                         (TMemCheck.condition mbp)) mbp in
          let w := on_memchecks M_Add (MemChecks.Add mbp) w in
          let w := if address_changed then on_memchecks M_Remove (MemChecks.Remove address) w else w in
          let w := emit_BreakpointsChanged w in
          Returned (Update w)
      end
  end.

Definition OnClicked (item : option QTableWidgetItem) (w : World) : Outcome :=
  match item with
  | None => Returned w
  | Some item =>
      if decide (column item = ADDRESS_COLUMN ∨ column item = END_ADDRESS_COLUMN)
      then Returned w
      else
        let address := ADDRESS_ROLE item in
        if decide (column item = ENABLED_COLUMN) then
          let w := if IS_MEMCHECK_ROLE item
                   then on_memchecks M_ToggleBreakPoint (MemChecks.ToggleBreakPoint address) w
                   else on_breakpoints M_ToggleBreakPoint (BreakPoints.ToggleBreakPoint address) w in
          let w := emit_BreakpointsChanged w in
          Returned (Update w)
        else if IS_MEMCHECK_ROLE item
             then EditMBP address (column item) None w
             else EditBreakpoint address (column item) None w
  end.

Definition OnClear (w : World) : Outcome :=
  let w := on_breakpoints M_Clear BreakPoints.Clear w in
  let w := on_memchecks M_Clear MemChecks.Clear w in
  let w := log Table_setRowCount0 w in
  let w := emit_BreakpointsChanged w in
  Returned (Update w).

Definition OnLoad (w : World) : Outcome :=
  let (loaded, ini) := IniFile.Load (game_ini w) in
  if negb loaded then Returned w
  else
    let w := match IniFile.GetLines "BreakPoints" ini with
             | Some new_bps =>
                 let w := on_breakpoints M_Clear BreakPoints.Clear w in
                 on_breakpoints M_AddFromStrings (BreakPoints_AddFromStrings new_bps) w
             | None => w
             end in
    let w := match IniFile.GetLines "MemoryBreakPoints" ini with
             | Some new_mcs =>
                 let w := on_memchecks M_Clear MemChecks.Clear w in
                 on_memchecks M_AddFromStrings (MemChecks_AddFromStrings new_mcs) w
             | None => w
             end in
    let w := emit_BreakpointsChanged w in
    Returned (Update w).

Definition OnSave (w : World) : Outcome :=
  let ini := snd (IniFile.Load (game_ini w)) in
  let ini := IniFile.SetLines "BreakPoints" (BreakPoints_GetStrings (breakpoints w)) ini in
  let ini := IniFile.SetLines "MemoryBreakPoints" (MemChecks_GetStrings (memchecks w)) ini in
  Returned (mkWorld _ (breakpoints w) (memchecks w) (IniFile.Save ini) (trace w ++ [Ini_Save])).

(** [OnContextMenu] followed by the choice of its [Delete] action: the menu is
    only built for a row whose entry is still in its registry. *)
Definition OnContextMenu_Delete (selected_item : option QTableWidgetItem)
    (w : World) : Outcome :=
  match selected_item with
  | None => Returned w
  | Some selected_item =>
      let bp_address := ADDRESS_ROLE selected_item in
      let is_memory_breakpoint := IS_MEMCHECK_ROLE selected_item in
      if negb is_memory_breakpoint then
        match list_find (BreakPoints.at_address bp_address) (breakpoints w) with
        | None => Returned w
        | Some _ =>
            let w := on_breakpoints M_Remove (BreakPoints.Remove bp_address) w in
            let w := emit_BreakpointsChanged w in
            Returned (Update w)
        end
      else
        match list_find (MemChecks.at_address bp_address) (memchecks w) with
        | None => Returned w
        | Some _ =>
            let w := on_memchecks M_Remove (MemChecks.Remove bp_address) w in
            let w := emit_BreakpointsChanged w in
            Returned (Update w)
        end
  end.

(** The operations of the widget that reach a registry. *)
Inductive Operation : Type :=
| Op_OnClicked (item : option QTableWidgetItem)
| Op_OnClear
| Op_OnLoad
| Op_OnSave
| Op_Delete (selected_item : option QTableWidgetItem)
| Op_AddBP (addr : Z)
| Op_AddBP5 (addr : Z) (temp break_on_hit log_on_hit : bool) (condition : string)
| Op_AddAddressMBP (addr : Z) (on_read on_write do_log do_break : bool) (condition : string)
| Op_AddRangedMBP (from to : Z) (on_read on_write do_log do_break : bool) (condition : string)
| Op_EditBreakpoint (address edit : Z) (string : option string)
| Op_EditMBP (address edit : Z) (string : option string).

Definition run (op : Operation) (w : World) : Outcome :=
  match op with
  | Op_OnClicked item => OnClicked item w
  | Op_OnClear => OnClear w
  | Op_OnLoad => OnLoad w
  | Op_OnSave => OnSave w
  | Op_Delete item => OnContextMenu_Delete item w
  | Op_AddBP addr => AddBP addr w
  | Op_AddBP5 addr temp b l c => AddBP5 addr temp b l c w
  | Op_AddAddressMBP addr r wr l b c => AddAddressMBP addr r wr l b c w
  | Op_AddRangedMBP from to r wr l b c => AddRangedMBP from to r wr l b c w
  | Op_EditBreakpoint address edit s => EditBreakpoint address edit s w
  | Op_EditMBP address edit s => EditMBP address edit s w
  end.

(** Every call of a mutating member function of a registry that occurs in a
    list of events is followed, later in the list, by the signal. *)
Definition notified (evs : list Event) : Prop :=
  ∀ before after s m, evs = before ++ Mutated s m :: after → Emit_BreakpointsChanged ∈ after.

End Widget.

(** ** Properties of event lists and of outcomes used in the statements *)

(** The signal occurs in a list of events. *)
Fixpoint emitsb (evs : list Event) : bool :=
  match evs with
  | [] => false
  | Emit_BreakpointsChanged :: _ => true
  | _ :: rest => emitsb rest
  end.

(** [notified], as a test that can be run. *)
Fixpoint notifiedb (evs : list Event) : bool :=
  match evs with
  | [] => true
  | Mutated _ _ :: rest => emitsb rest && notifiedb rest
  | _ :: rest => notifiedb rest
  end.

Section Statements.
Context `{Collaborators}.

(** An edit is rejected with feedback: the call returns, both registries are
    as before, and something the user can see has happened. *)
Definition rejected_with_feedback (w : World) (o : Outcome) : Prop :=
  ∃ w', o = Returned w'
        ∧ breakpoints w' = breakpoints w
        ∧ memchecks w' = memchecks w
        ∧ ∃ evs e, trace w' = trace w ++ evs ∧ e ∈ evs ∧ user_visible e = true.

(** Two successive calls of [f] return and leave the breakpoint found at
    [address] exactly as it was, field by field. *)
Definition restores_breakpoint (f : World → Outcome) (address : Z) (w : World) : Prop :=
  ∀ bp, BreakPoints.GetBreakpoint address (breakpoints w) = Some bp →
    ∃ w1 w2, f w = Returned w1 ∧ f w1 = Returned w2
             ∧ BreakPoints.GetBreakpoint address (breakpoints w2) = Some bp.

(** The address [EditBreakpoint] gives the edited entry; [None] is its early
    return on a text that does not parse. *)
Definition edited_address (address edit : Z) (string : option string) : option Z :=
  match string with
  | Some s => if decide (edit = ADDRESS_COLUMN) then toUInt s else Some address
  | None => Some address
  end.

(** The entry [EditBreakpoint] hands to [Add], from the entry found, the
    column, the text and the address of the edited entry. *)
Definition edited_breakpoint (old_bp : TBreakPoint.t Expression) (edit : Z)
    (string : option string) (a : Z) : TBreakPoint.t Expression :=
  TBreakPoint.mk a
    (flip_if edit ENABLED_COLUMN (TBreakPoint.is_enabled old_bp))
    (TBreakPoint.is_temporary new_TBreakPoint)
    (flip_if edit LOG_COLUMN (TBreakPoint.log_on_hit old_bp))
    (flip_if edit BREAK_COLUMN (TBreakPoint.break_on_hit old_bp))
    (edited_condition edit string (TBreakPoint.condition old_bp)
                      (TBreakPoint.condition new_TBreakPoint)).

(** The watch [EditMBP] hands to [Add]. *)
Definition edited_memcheck (old_mbp : TMemCheck.t Expression) (edit : Z)
    (string : option string) (start_address end_address : Z) : TMemCheck.t Expression :=
  TMemCheck.mk start_address end_address
    (flip_if edit ENABLED_COLUMN (TMemCheck.is_enabled old_mbp))
    (bool_decide (start_address ≠ end_address))
    (flip_if edit READ_COLUMN (TMemCheck.is_break_on_read old_mbp))
    (flip_if edit WRITE_COLUMN (TMemCheck.is_break_on_write old_mbp))
    (flip_if edit LOG_COLUMN (TMemCheck.log_on_hit old_mbp))
    (flip_if edit BREAK_COLUMN (TMemCheck.break_on_hit old_mbp))
    (edited_condition edit string (TMemCheck.condition old_mbp)
                      (TMemCheck.condition new_TMemCheck)).

(** Re-parsing the text of a condition gives the condition back. *)
Definition reparses (condition : option Expression) : Prop :=
  ∀ c, condition = Some c → TryParse (GetText c) = Some c.

(** The specification's reading of an edit of a breakpoint: the call
    returns and the first two things it does are a [Remove] and then an
    [Add] on the breakpoint registry. *)
Definition removes_then_adds (w : World) (o : Outcome) : Prop :=
  ∃ w' evs,
    o = Returned w'
    ∧ trace w' = trace w ++ Mutated BreakPointsStore M_Remove
                            :: Mutated BreakPointsStore M_Add :: evs.

(** The specification's reading of an edit of a watch that leaves its start
    address alone: the call returns, it has called [Add] and not [Remove] on
    the memory-check registry, and exactly one watch has the address
    afterwards. *)
Definition adds_without_removing (w : World) (address : Z) (o : Outcome) : Prop :=
  ∃ w' evs,
    o = Returned w'
    ∧ trace w' = trace w ++ evs
    ∧ Mutated MemChecksStore M_Add ∈ evs
    ∧ (Mutated MemChecksStore M_Remove ∉ evs)
    ∧ MemChecks.count address (memchecks w') = 1%nat.

End Statements.

(** ** A concrete set of collaborators, to run the model on examples

    Conditions are kept as their text; numbers are read as plain hexadecimal
    digits that fit 32 bits; a persisted line is the address in eight
    hexadecimal digits, the flags as 0/1 and the condition text. *)

Module Sample.
Local Open Scope string_scope.
Local Open Scope Z_scope.

Definition digit_value (c : Ascii.ascii) : option Z :=
  let n := Z.of_nat (Ascii.nat_of_ascii c) in
  if (48 <=? n) && (n <=? 57) then Some (n - 48)
  else if (97 <=? n) && (n <=? 102) then Some (n - 87)
  else if (65 <=? n) && (n <=? 70) then Some (n - 55)
  else None.

Fixpoint hex_value (acc : Z) (s : string) : option Z :=
  match s with
  | EmptyString => Some acc
  | String c rest =>
      match digit_value c with
      | Some d => hex_value (16 * acc + d) rest
      | None => None
      end
  end.

Definition hex_toUInt (s : string) : option Z :=
  if decide (s = "") then None
  else match hex_value 0 s with
       | Some v => if decide (v < 2 ^ 32) then Some v else None
       | None => None
       end.

Definition hex_digit (d : Z) : Ascii.ascii :=
  Ascii.ascii_of_nat (Z.to_nat (if d <? 10 then 48 + d else 87 + d)).

Definition hex8 (a : Z) : string :=
  foldr (λ i acc, String (hex_digit ((a / 16 ^ i) mod 16)) acc) "" [7; 6; 5; 4; 3; 2; 1; 0].

Definition flag (b : bool) : string := if b then "1" else "0".

Definition flag_at (i : nat) (s : string) : option bool :=
  match String.get i s with
  | Some c => if decide (Ascii.nat_of_ascii c = 49%nat) then Some true
              else if decide (Ascii.nat_of_ascii c = 48%nat) then Some false else None
  | None => None
  end.

Definition text_TryParse (s : string) : option string :=
  if decide (s = "") then None else Some s.

Definition condition_at (i : nat) (s : string) : option string :=
  text_TryParse (String.substring i (String.length s - i) s).

Definition bp_line (bp : TBreakPoint.t string) : string :=
  hex8 (TBreakPoint.address bp) +:+ flag (TBreakPoint.is_enabled bp) +:+
  flag (TBreakPoint.is_temporary bp) +:+ flag (TBreakPoint.log_on_hit bp) +:+
  flag (TBreakPoint.break_on_hit bp) +:+ default "" (TBreakPoint.condition bp).

Definition bp_parse (s : string) : option (TBreakPoint.t string) :=
  a ← hex_toUInt (String.substring 0 8 s);
  e ← flag_at 8 s; t ← flag_at 9 s; l ← flag_at 10 s; b ← flag_at 11 s;
  Some (TBreakPoint.mk a e t l b (condition_at 12 s)).

Definition mc_line (mc : TMemCheck.t string) : string :=
  hex8 (TMemCheck.start_address mc) +:+ hex8 (TMemCheck.end_address mc) +:+
  flag (TMemCheck.is_enabled mc) +:+ flag (TMemCheck.is_ranged mc) +:+
  flag (TMemCheck.is_break_on_read mc) +:+ flag (TMemCheck.is_break_on_write mc) +:+
  flag (TMemCheck.log_on_hit mc) +:+ flag (TMemCheck.break_on_hit mc) +:+
  default "" (TMemCheck.condition mc).

Definition mc_parse (s : string) : option (TMemCheck.t string) :=
  a ← hex_toUInt (String.substring 0 8 s);
  z ← hex_toUInt (String.substring 8 8 s);
  e ← flag_at 16 s; g ← flag_at 17 s; r ← flag_at 18 s; w ← flag_at 19 s;
  l ← flag_at 20 s; b ← flag_at 21 s;
  Some (TMemCheck.mk a z e g r w l b (condition_at 22 s)).

(** The collaborators; the one member initialiser that no member function of
    the widget overwrites in [EditBreakpoint] is left open. *)
Definition collaborators (is_temporary_default : bool) : Collaborators := {|
  Expression := string;
  TryParse := text_TryParse;
  GetText := id;
  toUInt := hex_toUInt;
  new_TBreakPoint := TBreakPoint.mk 0 false is_temporary_default false false None;
  new_TMemCheck := TMemCheck.mk 0 0 true false true true true true None;
  bp_to_line := bp_line;
  bp_of_line := bp_parse;
  mc_to_line := mc_line;
  mc_of_line := mc_parse;
|}.

(** A breakpoint at 0x80003000 and a watch of 0x80004000..0x80004010. *)
Definition bp_3000 (temporary : bool) : TBreakPoint.t string :=
  TBreakPoint.mk 0x80003000 true temporary false true None.

Definition mc_4000 : TMemCheck.t string :=
  TMemCheck.mk 0x80004000 0x80004010 true true true false true true None.

Definition world (dflt temporary : bool) : @World (collaborators dflt) :=
  @mkWorld (collaborators dflt) [bp_3000 temporary] [mc_4000] None [].

End Sample.

(** ** The table [Update] fills, the toolbar actions and the icon delegate *)

(** What [Update] puts in the address cell of a row: one address, or the two
    addresses of a ranged watch (the code formats them as eight hexadecimal
    digits, and as two such numbers separated by a dash). *)
Inductive AddressText : Type :=
| Address_single (a : Z)
| Address_range (a b : Z).

(** One row of the table.  The first item carries the two roles and the
    breakpoint icon of an enabled entry; the flag columns hold either the
    icon item or the empty item; no item is ever set in the end-address
    column. *)
Record TableRow : Type := mkRow {
  row_ADDRESS_ROLE : Z;
  row_IS_MEMCHECK_ROLE : bool;
  row_active_icon : bool;
  row_type : string;
  row_symbol : option string;
  row_address : AddressText;
  row_break : bool;
  row_log : bool;
  row_read : bool;
  row_write : bool;
  row_condition : string;
}.

(** [m_table->item(row, column)]: the item of a row in a column, with the
    roles of the first item of its row; null where [Update] sets no item. *)
Definition row_item (row : TableRow) (col : Z) : option QTableWidgetItem :=
  let item := Some (mkItem col (row_ADDRESS_ROLE row) (row_IS_MEMCHECK_ROLE row)) in
  if decide (col = SYMBOL_COLUMN) then
    match row_symbol row with Some _ => item | None => None end
  else if decide (col = END_ADDRESS_COLUMN) then None
  else if decide (0 ≤ col ≤ CONDITION_COLUMN) then item
  else None.

Section Rendering.
Context `{Collaborators}.

(** [ppc_symbol_db.GetSymbolFromAddr(address)], reduced to the name. *)
Variable GetSymbolFromAddr : Z → option string.

(** [condition ? QString::fromStdString(condition->GetText()) : QString()] *)
Definition condition_text (condition : option Expression) : string :=
  match condition with
  | Some c => GetText c
  | None => ""%string
  end.

(** The row of the first loop of [Update], for a breakpoint. *)
Definition breakpoint_row (bp : TBreakPoint.t Expression) : TableRow :=
  mkRow (TBreakPoint.address bp) false (TBreakPoint.is_enabled bp) "BP"
        (GetSymbolFromAddr (TBreakPoint.address bp))
        (Address_single (TBreakPoint.address bp))
        (TBreakPoint.break_on_hit bp) (TBreakPoint.log_on_hit bp) false false
        (condition_text (TBreakPoint.condition bp)).

(** The row of the second loop of [Update], for a memory check. *)
Definition memcheck_row (mbp : TMemCheck.t Expression) : TableRow :=
  mkRow (TMemCheck.start_address mbp) true (TMemCheck.is_enabled mbp) "MBP"
        (GetSymbolFromAddr (TMemCheck.start_address mbp))
        (if TMemCheck.is_ranged mbp
         then Address_range (TMemCheck.start_address mbp) (TMemCheck.end_address mbp)
         else Address_single (TMemCheck.start_address mbp))
        (TMemCheck.break_on_hit mbp) (TMemCheck.log_on_hit mbp)
        (TMemCheck.is_break_on_read mbp) (TMemCheck.is_break_on_write mbp)
        (condition_text (TMemCheck.condition mbp)).

(** The rows [Update] builds when the panel is visible (it returns at once
    otherwise): the breakpoints, then the memory checks, each in the order of
    its registry. *)
Definition Update_rows (w : World) : list TableRow :=
  (breakpoint_row <$> breakpoints w) ++ (memcheck_row <$> memchecks w).

End Rendering.

(** The four actions of the toolbar and whether each is enabled. *)
Record Actions : Type := mkActions {
  new_enabled : bool;
  clear_enabled : bool;
  load_enabled : bool;
  save_enabled : bool;
}.

(** [CreateWidgets]: the actions are added to the toolbar (an action is
    enabled when created) and New, Load and Save are disabled. *)
Definition CreateWidgets_actions : Actions := mkActions false true false false.

(** [UpdateButtonsEnabled], from [isVisible()] and from whether the state of
    the core differs from [Uninitialized]. *)
Definition UpdateButtonsEnabled (isVisible is_initialised : bool) (a : Actions) : Actions :=
  if negb isVisible then a
  else mkActions is_initialised (clear_enabled a) is_initialised is_initialised.

(** [CustomDelegate::paint]: where the pixmap of a cell is drawn.  The cell
    rectangle is given by its top-left corner and its size, the pixmap by its
    size, [None] being the null pixmap, for which nothing is drawn.  The
    C++ division of [int]s truncates toward zero. *)
Definition paint_pixmap (left top r_width r_height : Z) (pix : option (Z * Z))
    : option (Z * Z) :=
  match pix with
  | None => None
  | Some (pix_width, pix_height) =>
      let p := ((r_width - pix_width) `quot` 2, (r_height - pix_height) `quot` 2) in
      Some (left + fst p, top + snd p)
  end.

(** The values of type [int]. *)
Definition is_int (z : Z) : Prop := - 2 ^ 31 ≤ z < 2 ^ 31.

(** The events of a list that are neither the signal nor a redraw request. *)
Definition quiet (e : Event) : bool :=
  match e with
  | Emit_BreakpointsChanged | Call_Update => false
  | _ => true
  end.

(** A list of events ends with the signal followed by a redraw request, and
    has neither of them before. *)
Fixpoint signalled (evs : list Event) : bool :=
  match evs with
  | [] => false
  | e :: rest =>
      match e, rest with
      | Emit_BreakpointsChanged, [Call_Update] => true
      | _, _ => quiet e && signalled rest
      end
  end.

(** The actions after [CreateWidgets] and a series of calls of
    [UpdateButtonsEnabled], each with [isVisible()] and whether the core is
    initialised at that moment. *)
Definition actions_after (calls : list (bool * bool)) : Actions :=
  foldl (λ a call, UpdateButtonsEnabled call.1 call.2 a) CreateWidgets_actions calls.

(** A second sample world, with conditions: a breakpoint at 0x80003000 and a
    watch at 0x80004000 as [AddRangedMBP] leaves it when its two addresses
    are equal; the per-game file has a section for the breakpoints only. *)
Module Conditioned.
Local Open Scope string_scope.
Local Open Scope Z_scope.

Definition bp : TBreakPoint.t string :=
  TBreakPoint.mk 0x80003000 true false false true (Some "r3 == 5").

Definition mc : TMemCheck.t string :=
  TMemCheck.mk 0x80004000 0x80004000 true true true false true true (Some "r4 == 1").

Definition file : gmap string (list string) :=
  <["BreakPoints" := ["800030041011r3 == 5"]]> ∅.

Definition world : @World (Sample.collaborators false) :=
  @mkWorld (Sample.collaborators false) [bp] [mc] (Some file) [].

(** A symbol table without symbols. *)
Definition no_symbols (a : Z) : option string := None.

End Conditioned.

(** * Properties of the registries *)

Section BreakPointsFacts.
Context {Expression : Type}.
Implicit Types (bp : TBreakPoint.t Expression) (st : list (TBreakPoint.t Expression)).

Lemma BP_Get_cons a bp st :
  BreakPoints.GetBreakpoint a (bp :: st)
  = if decide (BreakPoints.at_address a bp) then Some bp else BreakPoints.GetBreakpoint a st.
Proof.
  unfold BreakPoints.GetBreakpoint. cbn [list_find].
  destruct (decide (BreakPoints.at_address a bp)); [done |].
  by destruct (list_find _ st) as [[i x] |].
Qed.

Lemma BP_count_cons a bp st :
  BreakPoints.count a (bp :: st)
  = ((if decide (BreakPoints.at_address a bp) then 1 else 0) + BreakPoints.count a st)%nat.
Proof.
  unfold BreakPoints.count. rewrite filter_cons.
  by destruct (decide (BreakPoints.at_address a bp)).
Qed.

Lemma BP_count_app a st1 st2 :
  BreakPoints.count a (st1 ++ st2) = (BreakPoints.count a st1 + BreakPoints.count a st2)%nat.
Proof. unfold BreakPoints.count. by rewrite filter_app, length_app. Qed.

Lemma BP_Get_Some a st bp :
  BreakPoints.GetBreakpoint a st = Some bp → bp ∈ st ∧ TBreakPoint.address bp = a.
Proof.
  induction st as [| x st IH]; [done |].
  rewrite BP_Get_cons. destruct (decide _) as [Hx | Hx].
  - intros [= ->]. split; [left | exact Hx].
  - intros Hg. destruct (IH Hg). split; [by right | done].
Qed.

Lemma BP_Get_None_count a st :
  BreakPoints.GetBreakpoint a st = None ↔ BreakPoints.count a st = 0%nat.
Proof.
  induction st as [| x st IH]; [done |].
  rewrite BP_Get_cons, BP_count_cons. destruct (decide _); [split; [done | lia] |].
  by rewrite IH.
Qed.

Lemma BP_Remove_cons a bp st :
  BreakPoints.Remove a (bp :: st)
  = if decide (BreakPoints.at_address a bp) then BreakPoints.Remove a st
    else bp :: BreakPoints.Remove a st.
Proof.
  unfold BreakPoints.Remove. rewrite filter_cons.
  destruct (decide (BreakPoints.at_address a bp)), (decide (¬ BreakPoints.at_address a bp));
    done.
Qed.

Lemma BP_count_Remove a b st :
  BreakPoints.count a (BreakPoints.Remove b st)
  = if decide (a = b) then 0%nat else BreakPoints.count a st.
Proof.
  induction st as [| x st IH]; [by destruct (decide _) |].
  rewrite BP_Remove_cons, BP_count_cons.
  destruct (decide (BreakPoints.at_address b x)) as [Hb | Hb].
  - rewrite IH. destruct (decide (a = b)) as [-> | Hab]; [done |].
    destruct (decide (BreakPoints.at_address a x)) as [Ha | Ha]; [| done].
    unfold BreakPoints.at_address in *. congruence.
  - rewrite BP_count_cons, IH. destruct (decide (a = b)) as [-> | Hab]; [| done].
    by destruct (decide (BreakPoints.at_address b x)).
Qed.

Lemma BP_count_Add a bp st :
  BreakPoints.count a (BreakPoints.Add bp st)
  = if decide (a = TBreakPoint.address bp) then 1%nat else BreakPoints.count a st.
Proof.
  unfold BreakPoints.Add. rewrite BP_count_app, BP_count_Remove, BP_count_cons.
  unfold BreakPoints.at_address at 1.
  destruct (decide (a = TBreakPoint.address bp)) as [-> | Hne].
  - by destruct (decide _).
  - destruct (decide _) as [He | He]; [by symmetry in He |].
    unfold BreakPoints.count. simpl. lia.
Qed.

Lemma BP_wf_Add bp st : BreakPoints.wf st → BreakPoints.wf (BreakPoints.Add bp st).
Proof.
  intros Hwf a. rewrite BP_count_Add. destruct (decide _); [lia | apply Hwf].
Qed.

Lemma BP_Get_Add_same bp st :
  BreakPoints.GetBreakpoint (TBreakPoint.address bp) (BreakPoints.Add bp st) = Some bp.
Proof.
  unfold BreakPoints.Add. induction st as [| x st IH].
  - change (BreakPoints.Remove (TBreakPoint.address bp) [] ++ [bp]) with [bp].
    rewrite BP_Get_cons. by destruct (decide _).
  - rewrite BP_Remove_cons. destruct (decide _) as [Hx | Hx]; [done |].
    cbn [app]. rewrite BP_Get_cons. by destruct (decide _).
Qed.

Lemma BP_Toggle_twice a st :
  BreakPoints.ToggleBreakPoint a (BreakPoints.ToggleBreakPoint a st) = st.
Proof.
  unfold BreakPoints.ToggleBreakPoint. rewrite <- list_fmap_compose.
  rewrite <- (list_fmap_id st) at 2. apply list_fmap_ext. intros i bp _. cbn.
  destruct (decide (BreakPoints.at_address a bp)) as [Ha | Ha].
  - destruct (decide _) as [_ | Hn]; [| by destruct Hn].
    destruct bp; cbn. by rewrite negb_involutive.
  - by destruct (decide _).
Qed.

End BreakPointsFacts.

Section MemChecksFacts.
Context {Expression : Type}.
Implicit Types (mc : TMemCheck.t Expression) (st : list (TMemCheck.t Expression)).

Lemma MC_Get_cons a mc st :
  MemChecks.GetMemCheck a (mc :: st)
  = if decide (MemChecks.at_address a mc) then Some mc else MemChecks.GetMemCheck a st.
Proof.
  unfold MemChecks.GetMemCheck. cbn [list_find].
  destruct (decide (MemChecks.at_address a mc)); [done |].
  by destruct (list_find _ st) as [[i x] |].
Qed.

Lemma MC_count_cons a mc st :
  MemChecks.count a (mc :: st)
  = ((if decide (MemChecks.at_address a mc) then 1 else 0) + MemChecks.count a st)%nat.
Proof.
  unfold MemChecks.count. rewrite filter_cons.
  by destruct (decide (MemChecks.at_address a mc)).
Qed.

Lemma MC_Get_Some a st mc :
  MemChecks.GetMemCheck a st = Some mc → mc ∈ st ∧ TMemCheck.start_address mc = a.
Proof.
  induction st as [| x st IH]; [done |].
  rewrite MC_Get_cons. destruct (decide _) as [Hx | Hx].
  - intros [= ->]. split; [left | exact Hx].
  - intros Hg. destruct (IH Hg). split; [by right | done].
Qed.

Lemma MC_Get_None_count a st :
  MemChecks.GetMemCheck a st = None ↔ MemChecks.count a st = 0%nat.
Proof.
  induction st as [| x st IH]; [done |].
  rewrite MC_Get_cons, MC_count_cons. destruct (decide _); [split; [done | lia] |].
  by rewrite IH.
Qed.

Lemma MC_Remove_cons a mc st :
  MemChecks.Remove a (mc :: st)
  = if decide (MemChecks.at_address a mc) then MemChecks.Remove a st
    else mc :: MemChecks.Remove a st.
Proof.
  unfold MemChecks.Remove. rewrite filter_cons.
  destruct (decide (MemChecks.at_address a mc)), (decide (¬ MemChecks.at_address a mc));
    done.
Qed.

Lemma MC_count_Remove a b st :
  MemChecks.count a (MemChecks.Remove b st)
  = if decide (a = b) then 0%nat else MemChecks.count a st.
Proof.
  induction st as [| x st IH]; [by destruct (decide _) |].
  rewrite MC_Remove_cons, MC_count_cons.
  destruct (decide (MemChecks.at_address b x)) as [Hb | Hb].
  - rewrite IH. destruct (decide (a = b)) as [-> | Hab]; [done |].
    destruct (decide (MemChecks.at_address a x)) as [Ha | Ha]; [| done].
    unfold MemChecks.at_address in *. congruence.
  - rewrite MC_count_cons, IH. destruct (decide (a = b)) as [-> | Hab]; [| done].
    by destruct (decide (MemChecks.at_address b x)).
Qed.

(** [Add] at a key that is present keeps the number of entries with that key;
    at a key that is absent it makes it one. *)
Lemma MC_count_Add_same mc st :
  MemChecks.count (TMemCheck.start_address mc) (MemChecks.Add mc st)
  = Nat.max 1 (MemChecks.count (TMemCheck.start_address mc) st).
Proof.
  induction st as [| x st IH].
  - cbn [MemChecks.Add]. rewrite MC_count_cons. by destruct (decide _).
  - cbn [MemChecks.Add]. destruct (decide _) as [Hx | Hx].
    + rewrite !MC_count_cons. destruct (decide _) as [_ | Hn]; [| by destruct Hn].
      destruct (decide _) as [_ | Hn]; [lia | by destruct Hn].
    + rewrite !MC_count_cons. by destruct (decide _).
Qed.

Lemma MC_count_Add_other a mc st :
  a ≠ TMemCheck.start_address mc →
  MemChecks.count a (MemChecks.Add mc st) = MemChecks.count a st.
Proof.
  intros Hne. induction st as [| x st IH].
  - cbn [MemChecks.Add]. rewrite MC_count_cons.
    destruct (decide _) as [He | He]; [unfold MemChecks.at_address in He; congruence | done].
  - cbn [MemChecks.Add]. destruct (decide _) as [Hx | Hx].
    + rewrite !MC_count_cons.
      destruct (decide (MemChecks.at_address a mc)) as [He | He]; [unfold MemChecks.at_address in He; congruence |].
      destruct (decide (MemChecks.at_address a x)) as [Ha | Ha]; [| done].
      unfold MemChecks.at_address in *. congruence.
    + by rewrite !MC_count_cons, IH.
Qed.

Lemma MC_wf_Add mc st : MemChecks.wf st → MemChecks.wf (MemChecks.Add mc st).
Proof.
  intros Hwf a. destruct (decide (a = TMemCheck.start_address mc)) as [-> | Hne].
  - rewrite MC_count_Add_same. specialize (Hwf (TMemCheck.start_address mc)). lia.
  - rewrite MC_count_Add_other by done. apply Hwf.
Qed.

Lemma MC_Get_Add_same mc st :
  MemChecks.GetMemCheck (TMemCheck.start_address mc) (MemChecks.Add mc st) = Some mc.
Proof.
  induction st as [| x st IH]; cbn [MemChecks.Add].
  - rewrite MC_Get_cons. by destruct (decide _).
  - destruct (decide _) as [Hx | Hx]; rewrite MC_Get_cons; by destruct (decide _).
Qed.

Lemma MC_length_Add_present mc st :
  is_Some (MemChecks.GetMemCheck (TMemCheck.start_address mc) st) →
  length (MemChecks.Add mc st) = length st.
Proof.
  induction st as [| x st IH]; [by intros [? ?] |].
  rewrite MC_Get_cons. cbn [MemChecks.Add].
  destruct (decide _); [done |]. intros Hs. cbn. by rewrite IH.
Qed.

Lemma MC_Add_idempotent mc st :
  MemChecks.Add mc (MemChecks.Add mc st) = MemChecks.Add mc st.
Proof.
  induction st as [| x st IH]; cbn [MemChecks.Add].
  - by destruct (decide _) as [_ | Hn]; [| destruct Hn].
  - destruct (decide _) as [Hx | Hx]; cbn [MemChecks.Add].
    + by destruct (decide _) as [_ | Hn]; [| destruct Hn].
    + destruct (decide _); [done |]. by rewrite IH.
Qed.

(** Removing the key of a watch just added undoes the addition and takes the
    watch that had this key before along. *)
Lemma MC_Remove_Add_same mc st :
  MemChecks.Remove (TMemCheck.start_address mc) (MemChecks.Add mc st)
  = MemChecks.Remove (TMemCheck.start_address mc) st.
Proof.
  induction st as [| x st IH]; cbn [MemChecks.Add].
  - rewrite MC_Remove_cons. by destruct (decide _) as [_ | Hn]; [| destruct Hn].
  - destruct (decide _) as [Hx | Hx]; rewrite !MC_Remove_cons.
    + destruct (decide _) as [_ | Hn]; [| by destruct Hn]. by destruct (decide _).
    + destruct (decide _); [done |]. by rewrite IH.
Qed.

Lemma MC_Get_Remove a st : MemChecks.GetMemCheck a (MemChecks.Remove a st) = None.
Proof. rewrite MC_Get_None_count, MC_count_Remove. by destruct (decide _). Qed.

Lemma MC_Toggle_twice a st :
  MemChecks.ToggleBreakPoint a (MemChecks.ToggleBreakPoint a st) = st.
Proof.
  unfold MemChecks.ToggleBreakPoint. rewrite <- list_fmap_compose.
  rewrite <- (list_fmap_id st) at 2. apply list_fmap_ext. intros i mc _. cbn.
  destruct (decide (MemChecks.at_address a mc)) as [Ha | Ha].
  - destruct (decide _) as [_ | Hn]; [| by destruct Hn].
    destruct mc; cbn. by rewrite negb_involutive.
  - by destruct (decide _).
Qed.

End MemChecksFacts.

(** * Properties of the widget *)

Section WidgetFacts.
Context `{Collaborators}.

Lemma EditMBP_addresses_reject (edit : Z) (s : string) (old_start old_end : Z) :
  toUInt s = None → edit = ADDRESS_COLUMN ∨ edit = END_ADDRESS_COLUMN →
  EditMBP_addresses edit (Some s) old_start old_end = None.
Proof.
  intros Hs He. unfold EditMBP_addresses.
  destruct (decide _) as [_ | Hn]; [by rewrite Hs | by destruct Hn].
Qed.

Lemma EditMBP_addresses_unchanged (edit : Z) (string : option string) (old_start old_end : Z) :
  ¬ (edit = ADDRESS_COLUMN ∧ is_Some string) →
  (EditMBP_addresses edit string old_start old_end = None
   ∧ ∃ s, edit = END_ADDRESS_COLUMN ∧ string = Some s ∧ toUInt s = None)
  ∨ ∃ e, EditMBP_addresses edit string old_start old_end = Some (old_start, e, false).
Proof.
  intros Hn. unfold EditMBP_addresses. destruct string as [s |]; [| eauto].
  destruct (decide _) as [[Hc | Hc] | Hc]; [destruct Hn; eauto | | eauto].
  destruct (toUInt s) as [a |] eqn:Hs; [| left; eauto].
  destruct (decide (edit = ADDRESS_COLUMN)) as [He | He]; [| eauto].
  destruct Hn. eauto.
Qed.

(** C9: [EditBreakpoint] and [EditMBP] dereference the pointer they get from
    [GetBreakpoint] / [GetMemCheck] before anything else: each of them ends
    in a null dereference exactly when the registry has no entry at the
    address, for every column and every text. *)
Theorem C9_edit_dereferences_the_looked_up_entry
    (w : World) (address edit : Z) (string : option string) :
  (EditBreakpoint address edit string w = NullDereference
   ↔ BreakPoints.GetBreakpoint address (breakpoints w) = None)
  ∧ (EditMBP address edit string w = NullDereference
     ↔ MemChecks.GetMemCheck address (memchecks w) = None).
Proof.
  split.
  - unfold EditBreakpoint.
    destruct (BreakPoints.GetBreakpoint address (breakpoints w)) as [old_bp |]; [| done].
    split; [| done]. destruct string as [s |]; [| done].
    destruct (decide (edit = ADDRESS_COLUMN)); [| done]. by destruct (toUInt s).
  - unfold EditMBP.
    destruct (MemChecks.GetMemCheck address (memchecks w)) as [old_mbp |]; [| done].
    split; [| done].
    by destruct (EditMBP_addresses _ _ _ _) as [[[? ?] ?] |].
Qed.

(** C1, as the code has it: an address edit of an existing breakpoint or
    memory watch with a text that does not parse as a hexadecimal number
    returns at once.  The world after the call is the world before it: both
    registries are unchanged, no signal is emitted, the table is not redrawn,
    and nothing else is shown to the user. *)
Theorem C1_invalid_address_text_is_dropped_silently
    (w : World) (address : Z) (s : string) :
  toUInt s = None →
  (is_Some (BreakPoints.GetBreakpoint address (breakpoints w)) →
   EditBreakpoint address ADDRESS_COLUMN (Some s) w = Returned w)
  ∧ (is_Some (MemChecks.GetMemCheck address (memchecks w)) →
     EditMBP address ADDRESS_COLUMN (Some s) w = Returned w
     ∧ EditMBP address END_ADDRESS_COLUMN (Some s) w = Returned w).
Proof.
  intros Hs. split.
  - intros [old_bp Hold]. unfold EditBreakpoint. rewrite Hold.
    destruct (decide (ADDRESS_COLUMN = ADDRESS_COLUMN)); [| done]. by rewrite Hs.
  - intros [old_mbp Hold]. unfold EditMBP. rewrite Hold.
    rewrite !EditMBP_addresses_reject by auto. done.
Qed.

(** C2, at the input where the code departs from the data model: [AddRangedMBP]
    called with [from] equal to [to] stores a watch whose two addresses are
    equal and whose [is_ranged] is true. *)
Theorem C2_AddRangedMBP_with_equal_addresses_is_ranged
    (w : World) (a : Z) (on_read on_write do_log do_break : bool) (condition : string) :
  ∃ w' mc,
    AddRangedMBP a a on_read on_write do_log do_break condition w = Returned w'
    ∧ MemChecks.GetMemCheck a (memchecks w') = Some mc
    ∧ TMemCheck.start_address mc = TMemCheck.end_address mc
    ∧ TMemCheck.is_ranged mc = true
    ∧ ¬ TMemCheck.ranged_ok mc.
Proof.
  unfold AddRangedMBP. eexists _, _. split; [reflexivity |].
  split; [apply (MC_Get_Add_same (TMemCheck.mk a a _ true _ _ _ _ _)) |].
  cbn. split; [done |]. split; [done |]. unfold TMemCheck.ranged_ok. cbn.
  intros [_ Hr]. by specialize (Hr eq_refl).
Qed.

(** What [AddAddressMBP] stores satisfies the invariant of the data model. *)
Lemma AddAddressMBP_ranged_ok
    (w : World) (a : Z) (on_read on_write do_log do_break : bool) (condition : string) :
  ∃ w' mc,
    AddAddressMBP a on_read on_write do_log do_break condition w = Returned w'
    ∧ MemChecks.GetMemCheck a (memchecks w') = Some mc
    ∧ TMemCheck.ranged_ok mc.
Proof.
  unfold AddAddressMBP. eexists _, _. split; [reflexivity |].
  split; [apply (MC_Get_Add_same (TMemCheck.mk a a _ false _ _ _ _ _)) |].
  by unfold TMemCheck.ranged_ok.
Qed.

(** The watch [EditMBP] builds is ranged exactly when its addresses differ. *)
Lemma edited_memcheck_ranged_ok
    (old_mbp : TMemCheck.t Expression) (edit : Z) (text : option string)
    (start_address end_address : Z) :
  TMemCheck.ranged_ok (edited_memcheck old_mbp edit text start_address end_address).
Proof.
  unfold TMemCheck.ranged_ok. cbn [edited_memcheck TMemCheck.is_ranged
    TMemCheck.start_address TMemCheck.end_address].
  rewrite bool_decide_eq_false. split; [| intros Heq Hne; by destruct Hne].
  intros Hnn. destruct (decide (start_address = end_address)); [done | by destruct Hnn].
Qed.

Lemma MC_Remove_Add_key (a : Z) (mc : TMemCheck.t Expression)
    (st : list (TMemCheck.t Expression)) :
  TMemCheck.start_address mc = a →
  MemChecks.Remove a (MemChecks.Add mc st) = MemChecks.Remove a st.
Proof. intros <-. apply MC_Remove_Add_same. Qed.

(** C10: editing the start address of an existing watch to the very address
    it already has removes the watch: [EditMBP] adds the edited watch, which
    replaces the old one in place, and then removes the entry with the old
    key, which is the watch just added. *)
Theorem C10_EditMBP_to_the_same_start_address_removes_the_watch
    (w : World) (address : Z) (s : string) (old_mbp : TMemCheck.t Expression) :
  MemChecks.GetMemCheck address (memchecks w) = Some old_mbp →
  toUInt s = Some address →
  ∃ w', EditMBP address ADDRESS_COLUMN (Some s) w = Returned w'
        ∧ MemChecks.GetMemCheck address (memchecks w') = None
        ∧ MemChecks.count address (memchecks w') = 0%nat
        ∧ memchecks w' = MemChecks.Remove address (memchecks w)
        ∧ breakpoints w' = breakpoints w
        ∧ trace w' = trace w ++ [Mutated MemChecksStore M_Add;
                                 Mutated MemChecksStore M_Remove;
                                 Emit_BreakpointsChanged; Call_Update].
Proof.
  intros Hold Hs. unfold EditMBP. rewrite Hold. unfold EditMBP_addresses.
  destruct (decide (ADDRESS_COLUMN = ADDRESS_COLUMN ∨ _)) as [_ | Hn];
    [| destruct Hn; by left].
  rewrite Hs. destruct (decide (ADDRESS_COLUMN = ADDRESS_COLUMN)); [| done].
  eexists. split; [reflexivity |].
  unfold Update, emit_BreakpointsChanged, log, on_memchecks.
  cbn [memchecks breakpoints trace].
  rewrite MC_Remove_Add_key by done.
  split; [apply MC_Get_Remove |].
  split; [rewrite MC_count_Remove; by destruct (decide _) |].
  split; [done |]. split; [done |]. by rewrite <- !app_assoc.
Qed.

Lemma EditBreakpoint_found
    (w : World) (address edit : Z) (string : option string)
    (old_bp : TBreakPoint.t Expression) :
  BreakPoints.GetBreakpoint address (breakpoints w) = Some old_bp →
  EditBreakpoint address edit string w
  = match edited_address address edit string with
    | None => Returned w
    | Some a =>
        Returned (Update (emit_BreakpointsChanged
          (on_breakpoints M_Add (BreakPoints.Add (edited_breakpoint old_bp edit string a))
             (on_breakpoints M_Remove (BreakPoints.Remove address) w))))
    end.
Proof.
  intros Hold. unfold EditBreakpoint, edited_address. rewrite Hold.
  destruct string as [s |]; [| done].
  destruct (decide (edit = ADDRESS_COLUMN)); [| done]. by destruct (toUInt s).
Qed.

Lemma EditMBP_found
    (w : World) (address edit : Z) (string : option string)
    (old_mbp : TMemCheck.t Expression) :
  MemChecks.GetMemCheck address (memchecks w) = Some old_mbp →
  EditMBP address edit string w
  = match EditMBP_addresses edit string (TMemCheck.start_address old_mbp)
                            (TMemCheck.end_address old_mbp) with
    | None => Returned w
    | Some (start_address, end_address, address_changed) =>
        let w := on_memchecks M_Add
                   (MemChecks.Add (edited_memcheck old_mbp edit string start_address end_address))
                   w in
        let w := if address_changed
                 then on_memchecks M_Remove (MemChecks.Remove address) w else w in
        Returned (Update (emit_BreakpointsChanged w))
    end.
Proof.
  intros Hold. unfold EditMBP. rewrite Hold.
  by destruct (EditMBP_addresses _ _ _ _) as [[[? ?] ?] |].
Qed.

Lemma trace_4 (w : World) (e1 e2 e3 e4 : Event) :
  (((trace w ++ [e1]) ++ [e2]) ++ [e3]) ++ [e4] = trace w ++ [e1; e2; e3; e4].
Proof. by rewrite <- !app_assoc. Qed.

Lemma trace_3 (w : World) (e1 e2 e3 : Event) :
  ((trace w ++ [e1]) ++ [e2]) ++ [e3] = trace w ++ [e1; e2; e3].
Proof. by rewrite <- !app_assoc. Qed.

(** Removing an address the registry has no entry at changes nothing. *)
Lemma BP_Remove_count_0 (a : Z) (st : list (TBreakPoint.t Expression)) :
  BreakPoints.count a st = 0%nat → BreakPoints.Remove a st = st.
Proof.
  induction st as [| x st IH]; [done |].
  rewrite BP_count_cons, BP_Remove_cons. destruct (decide _); [lia |].
  intros Hc. by rewrite IH.
Qed.

(** On a registry with no entry at the address of the breakpoint, [Add] is
    a plain append: nothing is there for it to replace. *)
Lemma BP_Add_appends (bp : TBreakPoint.t Expression) (st : list (TBreakPoint.t Expression)) :
  BreakPoints.count (TBreakPoint.address bp) st = 0%nat →
  BreakPoints.Add bp st = st ++ [bp].
Proof. intros Hc. unfold BreakPoints.Add. by rewrite BP_Remove_count_0. Qed.

(** C3, as the code has it: an [EditBreakpoint] call on an existing
    breakpoint that does not return early on a text that does not parse
    calls [Remove] with the old address and then [Add] with the edited
    entry, and nothing else on a registry.  The [Remove] leaves no entry at
    the old address.  When the address of the edited entry is the old one,
    or an address with no breakpoint, the [Add] therefore meets no entry at
    it and is a plain append, which does not depend on what [Add] does with
    an existing entry: the registry then holds exactly one breakpoint at the
    address of the edited entry, whereas appending the edited entry without
    the [Remove] would leave two at the old address.  When the address has
    changed, no breakpoint is left at the old address. *)
Theorem C3_EditBreakpoint_removes_then_adds
    (w : World) (address edit : Z) (string : option string)
    (old_bp : TBreakPoint.t Expression) (a : Z) :
  BreakPoints.GetBreakpoint address (breakpoints w) = Some old_bp →
  edited_address address edit string = Some a →
  ∃ w' bp,
    EditBreakpoint address edit string w = Returned w'
    ∧ bp = edited_breakpoint old_bp edit string a
    ∧ TBreakPoint.address bp = a
    ∧ trace w' = trace w ++ [Mutated BreakPointsStore M_Remove;
                             Mutated BreakPointsStore M_Add;
                             Emit_BreakpointsChanged; Call_Update]
    ∧ breakpoints w'
      = BreakPoints.Add bp (BreakPoints.Remove address (breakpoints w))
    ∧ BreakPoints.count address (BreakPoints.Remove address (breakpoints w)) = 0%nat
    ∧ (a = address ∨ BreakPoints.GetBreakpoint a (breakpoints w) = None →
       breakpoints w' = BreakPoints.Remove address (breakpoints w) ++ [bp]
       ∧ BreakPoints.count a (breakpoints w') = 1%nat)
    ∧ (a = address →
       (2 ≤ BreakPoints.count address (breakpoints w ++ [bp]))%nat)
    ∧ (a ≠ address → BreakPoints.count address (breakpoints w') = 0%nat)
    ∧ memchecks w' = memchecks w.
Proof.
  intros Hold Ha. rewrite (EditBreakpoint_found _ _ _ _ _ Hold), Ha.
  pose (bp := edited_breakpoint old_bp edit string a).
  exists (Update (emit_BreakpointsChanged
            (on_breakpoints M_Add (BreakPoints.Add bp)
               (on_breakpoints M_Remove (BreakPoints.Remove address) w)))), bp.
  split; [reflexivity |]. split; [done |]. split; [done |].
  unfold Update, emit_BreakpointsChanged, log, on_breakpoints.
  cbn [breakpoints memchecks trace]. split; [apply trace_4 |]. split; [done |].
  assert (Hgone : BreakPoints.count address (BreakPoints.Remove address (breakpoints w))
                  = 0%nat).
  { rewrite BP_count_Remove. by destruct (decide _). }
  split; [exact Hgone |].
  assert (Hfound : BreakPoints.count address (breakpoints w) ≠ 0%nat).
  { intros Hc. apply BP_Get_None_count in Hc. congruence. }
  split; [| split; [| split; [| done]]].
  - intros Hfree.
    assert (Hc : BreakPoints.count a (BreakPoints.Remove address (breakpoints w))
                 = 0%nat).
    { rewrite BP_count_Remove.
      destruct (decide (a = address)) as [_ | Hne]; [done |].
      destruct Hfree as [-> | Hnone]; [done | by apply BP_Get_None_count]. }
    rewrite (BP_Add_appends bp _ Hc). split; [done |].
    rewrite BP_count_app, Hc, BP_count_cons.
    destruct (decide _) as [_ | Hn]; [done | by destruct Hn].
  - intros ->. rewrite BP_count_app, BP_count_cons.
    destruct (decide _) as [_ | Hn]; [| by destruct Hn].
    change (BreakPoints.count address []) with 0%nat. lia.
  - intros Hne. rewrite BP_count_Add, Hgone.
    change (TBreakPoint.address bp) with a.
    destruct (decide (address = a)); [congruence | done].
Qed.

(** C4, as the code has it: [Add] of the memory-check registry replaces in
    place: adding a watch whose start address is present puts the watch under
    that key, keeps the number of entries, creates no second entry with the
    key, and adding it again changes nothing.  An [EditMBP] call on an
    existing watch in a keyed registry whose address block ends with
    [address_changed] false, that is a call that does not return early and
    does not edit the start-address column with a text, makes one [Add] of
    the edited watch and no [Remove]: afterwards the edited watch, with every
    field as [EditMBP] sets it, is found at the address, the registry has as
    many entries as before and exactly one with that start address. *)
Theorem C4_EditMBP_adds_in_place
    (w : World) (address edit : Z) (string : option string)
    (old_mbp : TMemCheck.t Expression) (start_address end_address : Z) :
  MemChecks.wf (memchecks w) →
  MemChecks.GetMemCheck address (memchecks w) = Some old_mbp →
  EditMBP_addresses edit string (TMemCheck.start_address old_mbp)
                    (TMemCheck.end_address old_mbp)
  = Some (start_address, end_address, false) →
  (∀ (mc : TMemCheck.t Expression) (st : list (TMemCheck.t Expression)),
     is_Some (MemChecks.GetMemCheck (TMemCheck.start_address mc) st) →
     MemChecks.GetMemCheck (TMemCheck.start_address mc) (MemChecks.Add mc st) = Some mc
     ∧ length (MemChecks.Add mc st) = length st
     ∧ MemChecks.count (TMemCheck.start_address mc) (MemChecks.Add mc st)
       = MemChecks.count (TMemCheck.start_address mc) st
     ∧ MemChecks.Add mc (MemChecks.Add mc st) = MemChecks.Add mc st)
  ∧ ∃ w' mbp,
      EditMBP address edit string w = Returned w'
      ∧ start_address = address
      ∧ mbp = edited_memcheck old_mbp edit string address end_address
      ∧ memchecks w' = MemChecks.Add mbp (memchecks w)
      ∧ MemChecks.GetMemCheck address (memchecks w') = Some mbp
      ∧ TMemCheck.start_address mbp = address
      ∧ TMemCheck.end_address mbp = end_address
      ∧ TMemCheck.is_ranged mbp = bool_decide (address ≠ end_address)
      ∧ MemChecks.count address (memchecks w') = 1%nat
      ∧ length (memchecks w') = length (memchecks w)
      ∧ breakpoints w' = breakpoints w
      ∧ trace w' = trace w ++ [Mutated MemChecksStore M_Add;
                               Emit_BreakpointsChanged; Call_Update].
Proof.
  intros Hwf Hold Haddr.
  assert (Hone : MemChecks.count address (memchecks w) = 1%nat).
  { specialize (Hwf address).
    destruct (MemChecks.count address (memchecks w)) as [| n] eqn:Hc; [| lia].
    apply MC_Get_None_count in Hc. congruence. }
  split.
  - intros mc st Hs. split; [apply MC_Get_Add_same |].
    split; [by apply MC_length_Add_present |]. split; [| apply MC_Add_idempotent].
    rewrite MC_count_Add_same.
    destruct (MemChecks.count (TMemCheck.start_address mc) st) as [| n] eqn:Hc; [| lia].
    apply MC_Get_None_count in Hc. rewrite Hc in Hs. by destruct Hs.
  - destruct (MC_Get_Some _ _ _ Hold) as [_ Hkey].
    assert (Hstart : start_address = address).
    { revert Haddr. unfold EditMBP_addresses. rewrite Hkey.
      destruct string as [s |]; [| congruence].
      destruct (decide _); [| congruence].
      destruct (toUInt s); [| done].
      destruct (decide (edit = ADDRESS_COLUMN)); congruence. }
    subst start_address.
    rewrite (EditMBP_found _ _ _ _ _ Hold), Haddr.
    pose (mbp := edited_memcheck old_mbp edit string address end_address).
    exists (Update (emit_BreakpointsChanged
              (on_memchecks M_Add (MemChecks.Add mbp) w))), mbp.
    split; [reflexivity |].
    unfold Update, emit_BreakpointsChanged, log, on_memchecks.
    cbn [breakpoints memchecks trace].
    split; [done |]. split; [done |]. split; [done |].
    split; [apply (MC_Get_Add_same mbp) |].
    split; [done |]. split; [done |]. split; [done |].
    split.
    { change address with (TMemCheck.start_address mbp) at 1.
      rewrite MC_count_Add_same. cbn [mbp edited_memcheck TMemCheck.start_address].
      by rewrite Hone. }
    split; [| split; [done | apply trace_3]].
    apply MC_length_Add_present. cbn [mbp edited_memcheck TMemCheck.start_address].
    by rewrite Hold.
Qed.

Lemma emitsb_sound (evs : list Event) :
  emitsb evs = true → Emit_BreakpointsChanged ∈ evs.
Proof.
  induction evs as [| e evs IH]; [done |].
  destruct e; cbn [emitsb]; intros He; try (right; by apply IH). left.
Qed.

Lemma notifiedb_sound (evs : list Event) : notifiedb evs = true → notified evs.
Proof.
  induction evs as [| e evs IH]; intros Hb before after s m Heq.
  - by destruct before.
  - destruct before as [| b before]; cbn [app] in Heq.
    + injection Heq as -> ->. cbn [notifiedb] in Hb.
      apply andb_prop in Hb as [He _]. by apply emitsb_sound.
    + injection Heq as -> ->. apply (IH) with (before := before) (s := s) (m := m).
      * destruct b; cbn [notifiedb] in Hb; try done. by apply andb_prop in Hb as [_ ?].
      * done.
Qed.

(** What an operation adds to the trace is fine when it is one of the event
    lists below: checked by running [notifiedb] and [emitsb]. *)
Lemma run_events_ok (w w' : World) (evs : list Event) :
  trace w' = trace w ++ evs →
  notifiedb evs = true →
  (emitsb evs = true
   ∨ (breakpoints w' = breakpoints w ∧ memchecks w' = memchecks w)) →
  ∃ evs', trace w' = trace w ++ evs'
          ∧ notified evs'
          ∧ (breakpoints w' ≠ breakpoints w ∨ memchecks w' ≠ memchecks w →
             Emit_BreakpointsChanged ∈ evs').
Proof.
  intros Ht Hn He. exists evs. split; [done |]. split; [by apply notifiedb_sound |].
  intros Hc. destruct He as [He | [Hb Hm]]; [by apply emitsb_sound |].
  destruct Hc as [Hc | Hc]; by destruct Hc.
Qed.

Ltac flatten_trace :=
  unfold Update, emit_BreakpointsChanged, log, on_breakpoints, on_memchecks;
  cbn [breakpoints memchecks trace game_ini];
  rewrite <- ?app_assoc; cbn [app].

Ltac settle_run :=
  first
    [ apply run_events_ok with (evs := []);
      [ by rewrite app_nil_r | reflexivity | by right ]
    | eapply run_events_ok;
      [ flatten_trace; reflexivity
      | reflexivity
      | first [ left; reflexivity | right; by flatten_trace ] ] ].

(** C5: whatever operation of the widget is run, in the events it adds to the
    trace every call of a mutating member function of a registry is followed
    by the emission of [BreakpointsChanged]; and a run that leaves a registry
    different from what it was has emitted the signal. *)
Theorem C5_mutation_is_followed_by_BreakpointsChanged
    (op : Operation) (w w' : World) :
  run op w = Returned w' →
  ∃ evs, trace w' = trace w ++ evs
         ∧ notified evs
         ∧ (breakpoints w' ≠ breakpoints w ∨ memchecks w' ≠ memchecks w →
            Emit_BreakpointsChanged ∈ evs).
Proof.
  intros Hrun. destruct op as [item | | | | item | | | | | address edit s | address edit s];
    cbn [run] in Hrun.
  - unfold OnClicked in Hrun. destruct item as [item |]; [| injection Hrun as <-; settle_run].
    destruct (decide _); [injection Hrun as <-; settle_run |].
    destruct (decide _).
    + injection Hrun as <-. destruct (IS_MEMCHECK_ROLE item); settle_run.
    + destruct (IS_MEMCHECK_ROLE item).
      * destruct (MemChecks.GetMemCheck (ADDRESS_ROLE item) (memchecks w)) as [old |] eqn:Hold.
        -- rewrite (EditMBP_found _ _ _ _ _ Hold) in Hrun.
           destruct (EditMBP_addresses _ _ _ _) as [[[a e] []] |];
             injection Hrun as <-; settle_run.
        -- unfold EditMBP in Hrun. by rewrite Hold in Hrun.
      * destruct (BreakPoints.GetBreakpoint (ADDRESS_ROLE item) (breakpoints w))
          as [old |] eqn:Hold.
        -- rewrite (EditBreakpoint_found _ _ _ _ _ Hold) in Hrun.
           destruct (edited_address _ _ _); injection Hrun as <-; settle_run.
        -- unfold EditBreakpoint in Hrun. by rewrite Hold in Hrun.
  - injection Hrun as <-. settle_run.
  - unfold OnLoad in Hrun. destruct (game_ini w) as [ini |]; cbn in Hrun;
      [| injection Hrun as <-; settle_run].
    injection Hrun as <-.
    destruct (IniFile.GetLines "BreakPoints" ini), (IniFile.GetLines "MemoryBreakPoints" ini);
      settle_run.
  - injection Hrun as <-. unfold OnSave.
    apply run_events_ok with (evs := [Ini_Save]); [done | done | by right].
  - unfold OnContextMenu_Delete in Hrun.
    destruct item as [item |]; [| injection Hrun as <-; settle_run].
    destruct (IS_MEMCHECK_ROLE item); cbn [negb] in Hrun.
    + destruct (list_find _ (memchecks w)); injection Hrun as <-; settle_run.
    + destruct (list_find _ (breakpoints w)); injection Hrun as <-; settle_run.
  - injection Hrun as <-. settle_run.
  - injection Hrun as <-. settle_run.
  - injection Hrun as <-. settle_run.
  - injection Hrun as <-. settle_run.
  - destruct (BreakPoints.GetBreakpoint address (breakpoints w)) as [old |] eqn:Hold.
    + rewrite (EditBreakpoint_found _ _ _ _ _ Hold) in Hrun.
      destruct (edited_address _ _ _); injection Hrun as <-; settle_run.
    + unfold EditBreakpoint in Hrun. by rewrite Hold in Hrun.
  - destruct (MemChecks.GetMemCheck address (memchecks w)) as [old |] eqn:Hold.
    + rewrite (EditMBP_found _ _ _ _ _ Hold) in Hrun.
      destruct (EditMBP_addresses _ _ _ _) as [[[a e] []] |];
        injection Hrun as <-; settle_run.
    + unfold EditMBP in Hrun. by rewrite Hold in Hrun.
Qed.

(** C6: [OnLoad] always returns.  When the per-game file is missing it
    returns at once and the world is as before.  When the file is there, a
    registry is cleared and filled from the lines of its section exactly when
    the section is present; a registry whose section is missing is left as it
    was, and no member function of it is called. *)
Theorem C6_OnLoad_missing_file_or_section (w : World) :
  ∃ w', OnLoad w = Returned w'
    ∧ (game_ini w = None → w' = w)
    ∧ (∀ ini, game_ini w = Some ini →
         breakpoints w'
         = match IniFile.GetLines "BreakPoints" ini with
           | Some new_bps => BreakPoints_AddFromStrings new_bps (BreakPoints.Clear (breakpoints w))
           | None => breakpoints w
           end
         ∧ memchecks w'
           = match IniFile.GetLines "MemoryBreakPoints" ini with
             | Some new_mcs => MemChecks_AddFromStrings new_mcs (MemChecks.Clear (memchecks w))
             | None => memchecks w
             end
         ∧ trace w'
           = trace w
             ++ match IniFile.GetLines "BreakPoints" ini with
                | Some _ => [Mutated BreakPointsStore M_Clear;
                             Mutated BreakPointsStore M_AddFromStrings]
                | None => []
                end
             ++ match IniFile.GetLines "MemoryBreakPoints" ini with
                | Some _ => [Mutated MemChecksStore M_Clear;
                             Mutated MemChecksStore M_AddFromStrings]
                | None => []
                end
             ++ [Emit_BreakpointsChanged; Call_Update]
         ∧ game_ini w' = game_ini w).
Proof.
  unfold OnLoad. destruct (game_ini w) as [file |] eqn:Hfile; cbn [IniFile.Load negb].
  - eexists. split; [reflexivity |]. split; [done |].
    intros ini [= <-].
    destruct (IniFile.GetLines "BreakPoints" file),
             (IniFile.GetLines "MemoryBreakPoints" file);
      flatten_trace; by rewrite ?app_nil_r.
  - exists w. split; [done |]. split; [done |]. by intros ini.
Qed.

(** C7: [OnSave] writes the per-game file with the lines of the breakpoint
    registry under the section name BreakPoints and the lines of the
    memory-check registry under MemoryBreakPoints, and leaves the other
    sections of the file and both registries alone; [OnLoad], run on the
    file just written, fills the registries from the lines under these two
    names. *)
Theorem C7_OnSave_writes_the_sections_OnLoad_reads (w : World) :
  ∃ w' ini,
    OnSave w = Returned w'
    ∧ game_ini w' = Some ini
    ∧ IniFile.GetLines "BreakPoints" ini = Some (BreakPoints_GetStrings (breakpoints w))
    ∧ IniFile.GetLines "MemoryBreakPoints" ini = Some (MemChecks_GetStrings (memchecks w))
    ∧ (∀ section, section ≠ "BreakPoints"%string → section ≠ "MemoryBreakPoints"%string →
         IniFile.GetLines section ini
         = IniFile.GetLines section (snd (IniFile.Load (game_ini w))))
    ∧ breakpoints w' = breakpoints w
    ∧ memchecks w' = memchecks w
    ∧ ∃ w'',
        OnLoad w' = Returned w''
        ∧ breakpoints w''
          = BreakPoints_AddFromStrings (BreakPoints_GetStrings (breakpoints w)) []
        ∧ memchecks w''
          = MemChecks_AddFromStrings (MemChecks_GetStrings (memchecks w)) [].
Proof.
  unfold OnSave. eexists _, _. split; [reflexivity |].
  cbn [game_ini breakpoints memchecks]. split; [reflexivity |].
  unfold IniFile.GetLines, IniFile.SetLines, IniFile.Save.
  assert (Hbp : (<["MemoryBreakPoints"%string := MemChecks_GetStrings (memchecks w)]>
                   (<["BreakPoints"%string := BreakPoints_GetStrings (breakpoints w)]>
                      (snd (IniFile.Load (game_ini w)))) : gmap string (list string))
                !! "BreakPoints"%string
                = Some (BreakPoints_GetStrings (breakpoints w))).
  { rewrite lookup_insert_ne by done. apply lookup_insert_eq. }
  split; [exact Hbp |]. split; [apply lookup_insert_eq |].
  split; [intros section H1 H2; by rewrite !lookup_insert_ne |].
  split; [done |]. split; [done |].
  unfold OnLoad. cbn [game_ini IniFile.Load negb].
  unfold IniFile.GetLines. rewrite Hbp, lookup_insert_eq.
  eexists. split; [reflexivity |]. done.
Qed.

(** C8, on the code: two clicks on the Active column of a row leave both
    registries exactly as they were, so [is_enabled] is back and no other
    field has changed.  Two [EditBreakpoint] calls on the Active column on
    an existing breakpoint return, the first has flipped [is_enabled], and
    after the second the breakpoint at the address has its original
    [is_enabled], address, [log_on_hit] and [break_on_hit], and its original
    condition when re-parsing the text of that condition gives it back (a
    default-constructed breakpoint having none); but [is_temporary] is not
    carried over: the entry has the flag of a default-constructed
    breakpoint, whatever the original had. *)
Theorem C8_two_edits_restore_is_enabled_and_reset_is_temporary
    (w : World) (address : Z) :
  (∀ is_memcheck : bool,
     ∃ w1 w2,
       OnClicked (Some (mkItem ENABLED_COLUMN address is_memcheck)) w = Returned w1
       ∧ OnClicked (Some (mkItem ENABLED_COLUMN address is_memcheck)) w1 = Returned w2
       ∧ breakpoints w2 = breakpoints w
       ∧ memchecks w2 = memchecks w)
  ∧ (∀ (string : option string) (bp : TBreakPoint.t Expression),
       BreakPoints.GetBreakpoint address (breakpoints w) = Some bp →
       ∃ w1 w2 bp1 bp2,
         EditBreakpoint address ENABLED_COLUMN string w = Returned w1
         ∧ BreakPoints.GetBreakpoint address (breakpoints w1) = Some bp1
         ∧ TBreakPoint.is_enabled bp1 = negb (TBreakPoint.is_enabled bp)
         ∧ EditBreakpoint address ENABLED_COLUMN string w1 = Returned w2
         ∧ BreakPoints.GetBreakpoint address (breakpoints w2) = Some bp2
         ∧ TBreakPoint.address bp2 = TBreakPoint.address bp
         ∧ TBreakPoint.is_enabled bp2 = TBreakPoint.is_enabled bp
         ∧ TBreakPoint.log_on_hit bp2 = TBreakPoint.log_on_hit bp
         ∧ TBreakPoint.break_on_hit bp2 = TBreakPoint.break_on_hit bp
         ∧ TBreakPoint.is_temporary bp1 = TBreakPoint.is_temporary new_TBreakPoint
         ∧ TBreakPoint.is_temporary bp2 = TBreakPoint.is_temporary new_TBreakPoint
         ∧ (TBreakPoint.condition new_TBreakPoint = None →
            reparses (TBreakPoint.condition bp) →
            TBreakPoint.condition bp2 = TBreakPoint.condition bp)).
Proof.
  split.
  - intros is_memcheck. unfold OnClicked. cbn [column ADDRESS_ROLE IS_MEMCHECK_ROLE].
    destruct (decide (ENABLED_COLUMN = ADDRESS_COLUMN ∨ ENABLED_COLUMN = END_ADDRESS_COLUMN))
      as [[Hc | Hc] | _]; [done | done |].
    destruct (decide (ENABLED_COLUMN = ENABLED_COLUMN)); [| done].
    eexists _, _. split; [reflexivity |]. split; [reflexivity |].
    destruct is_memcheck; flatten_trace.
    + by rewrite MC_Toggle_twice.
    + by rewrite BP_Toggle_twice.
  - intros string bp Hbp.
    assert (Haddr : edited_address address ENABLED_COLUMN string = Some address).
    { unfold edited_address. destruct string; [| done]. by destruct (decide _). }
    destruct (BP_Get_Some _ _ _ Hbp) as [_ Hkey].
    pose (bp1 := edited_breakpoint bp ENABLED_COLUMN string address).
    pose (w1 := Update (emit_BreakpointsChanged
                  (on_breakpoints M_Add (BreakPoints.Add bp1)
                     (on_breakpoints M_Remove (BreakPoints.Remove address) w)))).
    assert (H1 : BreakPoints.GetBreakpoint address (breakpoints w1) = Some bp1)
      by apply (BP_Get_Add_same bp1).
    pose (bp2 := edited_breakpoint bp1 ENABLED_COLUMN string address).
    pose (w2 := Update (emit_BreakpointsChanged
                  (on_breakpoints M_Add (BreakPoints.Add bp2)
                     (on_breakpoints M_Remove (BreakPoints.Remove address) w1)))).
    exists w1, w2, bp1, bp2.
    split; [by rewrite (EditBreakpoint_found _ _ _ _ _ Hbp), Haddr |].
    split; [exact H1 |].
    split; [by cbn; unfold flip_if; destruct (decide _) |].
    split; [by rewrite (EditBreakpoint_found _ _ _ _ _ H1), Haddr |].
    split; [apply (BP_Get_Add_same bp2) |].
    split; [by cbn |].
    split; [cbn; unfold flip_if; destruct (decide _); [apply negb_involutive | done] |].
    split; [cbn; unfold flip_if; by destruct (decide _) |].
    split; [cbn; unfold flip_if; by destruct (decide _) |].
    split; [done |]. split; [done |].
    intros Hdflt Hre. cbn. rewrite Hdflt. unfold edited_condition.
    destruct (decide (ENABLED_COLUMN = CONDITION_COLUMN)); [done |].
    destruct (TBreakPoint.condition bp) as [c |] eqn:Hc.
    + rewrite (Hre c eq_refl). destruct string; by rewrite (Hre c eq_refl).
    + by destruct string.
Qed.

End WidgetFacts.

(** * Further properties of the registries *)

Section BreakPointsLookup.
Context {Expression : Type}.
Implicit Types (bp : TBreakPoint.t Expression) (st : list (TBreakPoint.t Expression)).

Lemma BP_Get_Remove a b st :
  BreakPoints.GetBreakpoint a (BreakPoints.Remove b st)
  = if decide (a = b) then None else BreakPoints.GetBreakpoint a st.
Proof.
  induction st as [| x st IH]; [by destruct (decide _) |].
  rewrite BP_Remove_cons. destruct (decide (BreakPoints.at_address b x)) as [Hb | Hb].
  - rewrite IH, BP_Get_cons. destruct (decide (a = b)) as [-> | Hab]; [done |].
    destruct (decide (BreakPoints.at_address a x)) as [Ha | Ha]; [| done].
    unfold BreakPoints.at_address in *. congruence.
  - rewrite !BP_Get_cons, IH. destruct (decide (a = b)) as [-> | Hab]; [| done].
    by destruct (decide (BreakPoints.at_address b x)).
Qed.

Lemma BP_Get_app a st1 st2 :
  BreakPoints.GetBreakpoint a (st1 ++ st2)
  = match BreakPoints.GetBreakpoint a st1 with
    | Some bp => Some bp
    | None => BreakPoints.GetBreakpoint a st2
    end.
Proof.
  induction st1 as [| x st1 IH]; [done |].
  cbn [app]. rewrite !BP_Get_cons. by destruct (decide _).
Qed.

Lemma BP_Get_Add a bp st :
  BreakPoints.GetBreakpoint a (BreakPoints.Add bp st)
  = if decide (a = TBreakPoint.address bp) then Some bp
    else BreakPoints.GetBreakpoint a st.
Proof.
  destruct (decide (a = TBreakPoint.address bp)) as [-> | Hne];
    [apply BP_Get_Add_same |].
  unfold BreakPoints.Add. rewrite BP_Get_app, BP_Get_Remove.
  destruct (decide (a = TBreakPoint.address bp)); [done |].
  destruct (BreakPoints.GetBreakpoint a st); [done |].
  rewrite BP_Get_cons. destruct (decide _) as [Ha | Ha]; [| done].
  unfold BreakPoints.at_address in Ha. congruence.
Qed.

(** Removing an address that is not there changes nothing. *)
Lemma BP_Remove_absent a st :
  BreakPoints.GetBreakpoint a st = None → BreakPoints.Remove a st = st.
Proof.
  induction st as [| x st IH]; [done |].
  rewrite BP_Get_cons, BP_Remove_cons. destruct (decide _); [done |].
  intros Hn. by rewrite IH.
Qed.

End BreakPointsLookup.

Section MemChecksLookup.
Context {Expression : Type}.
Implicit Types (mc : TMemCheck.t Expression) (st : list (TMemCheck.t Expression)).

Lemma MC_Get_Remove_at a b st :
  MemChecks.GetMemCheck a (MemChecks.Remove b st)
  = if decide (a = b) then None else MemChecks.GetMemCheck a st.
Proof.
  induction st as [| x st IH]; [by destruct (decide _) |].
  rewrite MC_Remove_cons. destruct (decide (MemChecks.at_address b x)) as [Hb | Hb].
  - rewrite IH, MC_Get_cons. destruct (decide (a = b)) as [-> | Hab]; [done |].
    destruct (decide (MemChecks.at_address a x)) as [Ha | Ha]; [| done].
    unfold MemChecks.at_address in *. congruence.
  - rewrite !MC_Get_cons, IH. destruct (decide (a = b)) as [-> | Hab]; [| done].
    by destruct (decide (MemChecks.at_address b x)).
Qed.

Lemma MC_Get_Add a mc st :
  MemChecks.GetMemCheck a (MemChecks.Add mc st)
  = if decide (a = TMemCheck.start_address mc) then Some mc
    else MemChecks.GetMemCheck a st.
Proof.
  destruct (decide (a = TMemCheck.start_address mc)) as [-> | Hne];
    [apply MC_Get_Add_same |].
  induction st as [| x st IH]; cbn [MemChecks.Add].
  - rewrite MC_Get_cons. destruct (decide _) as [Ha | Ha]; [| done].
    unfold MemChecks.at_address in Ha. congruence.
  - destruct (decide _) as [Hx | Hx]; rewrite !MC_Get_cons.
    + destruct (decide (MemChecks.at_address a mc)) as [Ha | Ha];
        [unfold MemChecks.at_address in Ha; congruence |].
      destruct (decide (MemChecks.at_address a x)) as [Ha' | Ha']; [| done].
      unfold MemChecks.at_address in *. congruence.
    + by rewrite IH.
Qed.

(** Replacing in place keeps the keys of the registry and their order. *)
Lemma MC_keys_Add_present mc st :
  is_Some (MemChecks.GetMemCheck (TMemCheck.start_address mc) st) →
  TMemCheck.start_address <$> MemChecks.Add mc st = TMemCheck.start_address <$> st.
Proof.
  induction st as [| x st IH]; [by intros [? ?] |].
  rewrite MC_Get_cons. cbn [MemChecks.Add].
  destruct (decide _) as [Hx | Hx]; cbn [fmap list_fmap].
  - intros _. by rewrite Hx.
  - intros Hs. by rewrite <- IH.
Qed.

(** Adding at a key that is not there appends. *)
Lemma MC_Add_absent mc st :
  MemChecks.GetMemCheck (TMemCheck.start_address mc) st = None →
  MemChecks.Add mc st = st ++ [mc].
Proof.
  induction st as [| x st IH]; [done |].
  rewrite MC_Get_cons. cbn [MemChecks.Add]. destruct (decide _); [done |].
  intros Hn. cbn [app]. by rewrite IH.
Qed.

End MemChecksLookup.

(** * Further properties of the widget *)

Section WidgetEdits.
Context `{Collaborators}.

Ltac unfold_world :=
  unfold Update, emit_BreakpointsChanged, log, on_breakpoints, on_memchecks;
  cbn [breakpoints memchecks trace game_ini].

(** A click outside the Active column and the two address columns is an
    edit of the clicked column without a text. *)
Lemma OnClicked_is_an_edit (w : World) (col address : Z) (is_memcheck : bool) :
  col ≠ ADDRESS_COLUMN → col ≠ END_ADDRESS_COLUMN → col ≠ ENABLED_COLUMN →
  OnClicked (Some (mkItem col address is_memcheck)) w
  = if is_memcheck then EditMBP address col None w else EditBreakpoint address col None w.
Proof.
  intros H1 H2 H3. unfold OnClicked. cbn [column ADDRESS_ROLE IS_MEMCHECK_ROLE].
  destruct (decide _) as [[? | ?] | _]; [done | done |].
  by destruct (decide (col = ENABLED_COLUMN)).
Qed.

(** X1: a click on a cell of a breakpoint row, outside the Active column and
    the address columns, always goes through [EditBreakpoint]: the entry at
    the address is replaced by a fresh one that is last in the registry.
    Break and Log flip their flag, every other column flips nothing; the
    address and [is_enabled] are kept; [is_temporary] is that of a
    default-constructed breakpoint; the condition is parsed again from its
    text, except on the Condition column, where it is dropped. *)
Theorem X1_click_on_a_breakpoint_row
    (w : World) (address col : Z) (old_bp : TBreakPoint.t Expression) :
  BreakPoints.GetBreakpoint address (breakpoints w) = Some old_bp →
  col ≠ ADDRESS_COLUMN → col ≠ END_ADDRESS_COLUMN → col ≠ ENABLED_COLUMN →
  ∃ w' bp,
    OnClicked (Some (mkItem col address false)) w = Returned w'
    ∧ BreakPoints.GetBreakpoint address (breakpoints w') = Some bp
    ∧ last (breakpoints w') = Some bp
    ∧ TBreakPoint.address bp = address
    ∧ TBreakPoint.is_enabled bp = TBreakPoint.is_enabled old_bp
    ∧ TBreakPoint.break_on_hit bp
      = (if decide (col = BREAK_COLUMN) then negb (TBreakPoint.break_on_hit old_bp)
         else TBreakPoint.break_on_hit old_bp)
    ∧ TBreakPoint.log_on_hit bp
      = (if decide (col = LOG_COLUMN) then negb (TBreakPoint.log_on_hit old_bp)
         else TBreakPoint.log_on_hit old_bp)
    ∧ TBreakPoint.is_temporary bp = TBreakPoint.is_temporary new_TBreakPoint
    ∧ TBreakPoint.condition bp
      = (if decide (col = CONDITION_COLUMN) then TBreakPoint.condition new_TBreakPoint
         else match TBreakPoint.condition old_bp with
              | Some c => TryParse (GetText c)
              | None => TBreakPoint.condition new_TBreakPoint
              end)
    ∧ (∀ other, other ≠ address →
         BreakPoints.GetBreakpoint other (breakpoints w')
         = BreakPoints.GetBreakpoint other (breakpoints w))
    ∧ memchecks w' = memchecks w.
Proof.
  intros Hold H1 H2 H3. rewrite OnClicked_is_an_edit by done.
  rewrite (EditBreakpoint_found _ _ _ _ _ Hold). cbn [edited_address].
  eexists _, (edited_breakpoint old_bp col None address). split; [reflexivity |].
  unfold_world.
  split; [apply (BP_Get_Add_same (edited_breakpoint old_bp col None address)) |].
  split; [unfold BreakPoints.Add; apply last_snoc |].
  split; [done |]. cbn [edited_breakpoint TBreakPoint.is_enabled TBreakPoint.break_on_hit
    TBreakPoint.log_on_hit TBreakPoint.is_temporary TBreakPoint.condition].
  unfold flip_if, edited_condition.
  split; [by destruct (decide (col = ENABLED_COLUMN)) |].
  split; [done |]. split; [done |]. split; [done |].
  split.
  - destruct (TBreakPoint.condition old_bp); by destruct (decide _).
  - split; [| done]. intros other Hother.
    rewrite BP_Get_Add, BP_Get_Remove. cbn [edited_breakpoint TBreakPoint.address].
    by destruct (decide (other = address)).
Qed.

(** X2: a click on a cell of a memory-check row, outside the Active column
    and the address columns, replaces the watch in place: the start
    addresses of the registry and their order are as before.  Break, Log,
    Read and Write flip their flag, every other column flips nothing; both
    addresses and [is_enabled] are kept; [is_ranged] is computed again from
    the two addresses; the condition is parsed again from its text, except
    on the Condition column, where it is dropped. *)
Theorem X2_click_on_a_memcheck_row
    (w : World) (address col : Z) (old_mbp : TMemCheck.t Expression) :
  MemChecks.GetMemCheck address (memchecks w) = Some old_mbp →
  col ≠ ADDRESS_COLUMN → col ≠ END_ADDRESS_COLUMN → col ≠ ENABLED_COLUMN →
  ∃ w' mbp,
    OnClicked (Some (mkItem col address true)) w = Returned w'
    ∧ MemChecks.GetMemCheck address (memchecks w') = Some mbp
    ∧ TMemCheck.start_address <$> memchecks w' = TMemCheck.start_address <$> memchecks w
    ∧ TMemCheck.start_address mbp = address
    ∧ TMemCheck.end_address mbp = TMemCheck.end_address old_mbp
    ∧ TMemCheck.is_enabled mbp = TMemCheck.is_enabled old_mbp
    ∧ TMemCheck.is_ranged mbp = bool_decide (address ≠ TMemCheck.end_address old_mbp)
    ∧ TMemCheck.break_on_hit mbp
      = (if decide (col = BREAK_COLUMN) then negb (TMemCheck.break_on_hit old_mbp)
         else TMemCheck.break_on_hit old_mbp)
    ∧ TMemCheck.log_on_hit mbp
      = (if decide (col = LOG_COLUMN) then negb (TMemCheck.log_on_hit old_mbp)
         else TMemCheck.log_on_hit old_mbp)
    ∧ TMemCheck.is_break_on_read mbp
      = (if decide (col = READ_COLUMN) then negb (TMemCheck.is_break_on_read old_mbp)
         else TMemCheck.is_break_on_read old_mbp)
    ∧ TMemCheck.is_break_on_write mbp
      = (if decide (col = WRITE_COLUMN) then negb (TMemCheck.is_break_on_write old_mbp)
         else TMemCheck.is_break_on_write old_mbp)
    ∧ TMemCheck.condition mbp
      = (if decide (col = CONDITION_COLUMN) then TMemCheck.condition new_TMemCheck
         else match TMemCheck.condition old_mbp with
              | Some c => TryParse (GetText c)
              | None => TMemCheck.condition new_TMemCheck
              end)
    ∧ (∀ other, other ≠ address →
         MemChecks.GetMemCheck other (memchecks w')
         = MemChecks.GetMemCheck other (memchecks w))
    ∧ breakpoints w' = breakpoints w.
Proof.
  intros Hold H1 H2 H3. rewrite OnClicked_is_an_edit by done.
  rewrite (EditMBP_found _ _ _ _ _ Hold). cbn [EditMBP_addresses].
  destruct (MC_Get_Some _ _ _ Hold) as [_ Hkey]. rewrite Hkey.
  set (mbp := edited_memcheck old_mbp col None address (TMemCheck.end_address old_mbp)).
  eexists _, mbp. split; [reflexivity |]. cbn zeta. unfold_world.
  split; [apply (MC_Get_Add_same mbp) |].
  split; [apply MC_keys_Add_present; cbn [mbp edited_memcheck TMemCheck.start_address];
          by rewrite Hold |].
  split; [done |]. split; [done |].
  cbn [mbp edited_memcheck TMemCheck.is_enabled TMemCheck.break_on_hit TMemCheck.is_ranged
    TMemCheck.log_on_hit TMemCheck.is_break_on_read TMemCheck.is_break_on_write
    TMemCheck.condition].
  unfold flip_if, edited_condition.
  split; [by destruct (decide (col = ENABLED_COLUMN)) |].
  split; [done |]. split; [done |]. split; [done |]. split; [done |]. split; [done |].
  split.
  - destruct (TMemCheck.condition old_mbp); by destruct (decide _).
  - split; [| done]. intros other Hother. rewrite MC_Get_Add.
    cbn [mbp edited_memcheck TMemCheck.start_address].
    by destruct (decide (other = address)).
Qed.

(** X3: editing the start address of an existing watch to another address
    that parses moves the watch: afterwards the edited watch is found at the
    new address, whatever was there before, with the old end address (no
    order between the two is checked) and with [is_ranged] computed from
    them; nothing is found at the old address; the watches at all other
    addresses and the breakpoints are untouched. *)
Theorem X3_EditMBP_moves_the_watch
    (w : World) (address new_address : Z) (s : string)
    (old_mbp : TMemCheck.t Expression) :
  MemChecks.GetMemCheck address (memchecks w) = Some old_mbp →
  toUInt s = Some new_address →
  new_address ≠ address →
  ∃ w' mbp,
    EditMBP address ADDRESS_COLUMN (Some s) w = Returned w'
    ∧ MemChecks.GetMemCheck new_address (memchecks w') = Some mbp
    ∧ TMemCheck.start_address mbp = new_address
    ∧ TMemCheck.end_address mbp = TMemCheck.end_address old_mbp
    ∧ TMemCheck.ranged_ok mbp
    ∧ MemChecks.GetMemCheck address (memchecks w') = None
    ∧ (∀ other, other ≠ address → other ≠ new_address →
         MemChecks.GetMemCheck other (memchecks w')
         = MemChecks.GetMemCheck other (memchecks w))
    ∧ breakpoints w' = breakpoints w.
Proof.
  intros Hold Hs Hne. rewrite (EditMBP_found _ _ _ _ _ Hold).
  unfold EditMBP_addresses.
  destruct (decide (ADDRESS_COLUMN = ADDRESS_COLUMN ∨ _)) as [_ | Hn];
    [| destruct Hn; by left].
  rewrite Hs. destruct (decide (ADDRESS_COLUMN = ADDRESS_COLUMN)); [| done].
  set (mbp := edited_memcheck old_mbp ADDRESS_COLUMN (Some s) new_address
                (TMemCheck.end_address old_mbp)).
  eexists _, mbp. split; [reflexivity |]. cbn zeta. unfold_world.
  split.
  { rewrite MC_Get_Remove_at. destruct (decide _); [done |]. apply (MC_Get_Add_same mbp). }
  split; [done |]. split; [done |]. split; [apply edited_memcheck_ranged_ok |].
  split; [rewrite MC_Get_Remove_at; by destruct (decide _) |].
  split; [| done]. intros other Ho1 Ho2.
  rewrite MC_Get_Remove_at, MC_Get_Add. cbn [mbp edited_memcheck TMemCheck.start_address].
  destruct (decide (other = address)); [done |]. by destruct (decide (other = new_address)).
Qed.

(** X4: editing the end address of an existing watch with a text that
    parses keeps the watch where it is: the start addresses of the registry
    and their order are as before, the watch found at the address has the
    new end address, and it is ranged exactly when the new end address
    differs from the start address; the other watches and the breakpoints
    are untouched. *)
Theorem X4_EditMBP_sets_the_end_address
    (w : World) (address new_address : Z) (s : string)
    (old_mbp : TMemCheck.t Expression) :
  MemChecks.GetMemCheck address (memchecks w) = Some old_mbp →
  toUInt s = Some new_address →
  ∃ w' mbp,
    EditMBP address END_ADDRESS_COLUMN (Some s) w = Returned w'
    ∧ MemChecks.GetMemCheck address (memchecks w') = Some mbp
    ∧ TMemCheck.start_address <$> memchecks w' = TMemCheck.start_address <$> memchecks w
    ∧ TMemCheck.start_address mbp = address
    ∧ TMemCheck.end_address mbp = new_address
    ∧ TMemCheck.is_ranged mbp = bool_decide (address ≠ new_address)
    ∧ TMemCheck.is_enabled mbp = TMemCheck.is_enabled old_mbp
    ∧ (∀ other, other ≠ address →
         MemChecks.GetMemCheck other (memchecks w')
         = MemChecks.GetMemCheck other (memchecks w))
    ∧ breakpoints w' = breakpoints w.
Proof.
  intros Hold Hs. rewrite (EditMBP_found _ _ _ _ _ Hold).
  unfold EditMBP_addresses.
  destruct (decide (END_ADDRESS_COLUMN = ADDRESS_COLUMN ∨ _)) as [_ | Hn];
    [| destruct Hn; by right].
  rewrite Hs. destruct (decide (END_ADDRESS_COLUMN = ADDRESS_COLUMN)); [done |].
  destruct (MC_Get_Some _ _ _ Hold) as [_ Hkey]. rewrite Hkey.
  set (mbp := edited_memcheck old_mbp END_ADDRESS_COLUMN (Some s) address new_address).
  eexists _, mbp. split; [reflexivity |]. cbn zeta. unfold_world.
  split; [apply (MC_Get_Add_same mbp) |].
  split; [apply MC_keys_Add_present; cbn [mbp edited_memcheck TMemCheck.start_address];
          by rewrite Hold |].
  split; [done |]. split; [done |]. split; [done |].
  split; [cbn; unfold flip_if; by destruct (decide _) |].
  split; [| done]. intros other Hother. rewrite MC_Get_Add.
  cbn [mbp edited_memcheck TMemCheck.start_address].
  by destruct (decide (other = address)).
Qed.

(** X5: editing the address of an existing breakpoint with a text that
    parses, to an address that holds no other breakpoint, moves the
    breakpoint.  The entry at the old address is removed and the edited
    entry is appended, whatever [Add] does with an existing entry, since it
    meets none: afterwards the edited entry is found at the new address,
    with the flags of the old entry; nothing is found at the old address
    when the address has changed; the breakpoints at all other addresses
    and the memory checks are untouched. *)
Theorem X5_EditBreakpoint_moves_the_breakpoint
    (w : World) (address new_address : Z) (s : string)
    (old_bp : TBreakPoint.t Expression) :
  BreakPoints.GetBreakpoint address (breakpoints w) = Some old_bp →
  toUInt s = Some new_address →
  (new_address ≠ address →
   BreakPoints.GetBreakpoint new_address (breakpoints w) = None) →
  ∃ w' bp,
    EditBreakpoint address ADDRESS_COLUMN (Some s) w = Returned w'
    ∧ breakpoints w' = BreakPoints.Remove address (breakpoints w) ++ [bp]
    ∧ BreakPoints.GetBreakpoint new_address (breakpoints w') = Some bp
    ∧ TBreakPoint.address bp = new_address
    ∧ TBreakPoint.is_enabled bp = TBreakPoint.is_enabled old_bp
    ∧ TBreakPoint.break_on_hit bp = TBreakPoint.break_on_hit old_bp
    ∧ TBreakPoint.log_on_hit bp = TBreakPoint.log_on_hit old_bp
    ∧ (new_address ≠ address →
       BreakPoints.GetBreakpoint address (breakpoints w') = None)
    ∧ (∀ other, other ≠ address → other ≠ new_address →
         BreakPoints.GetBreakpoint other (breakpoints w')
         = BreakPoints.GetBreakpoint other (breakpoints w))
    ∧ memchecks w' = memchecks w.
Proof.
  intros Hold Hs Hfree. rewrite (EditBreakpoint_found _ _ _ _ _ Hold).
  unfold edited_address. destruct (decide (ADDRESS_COLUMN = ADDRESS_COLUMN)); [| done].
  rewrite Hs.
  set (bp := edited_breakpoint old_bp ADDRESS_COLUMN (Some s) new_address).
  eexists _, bp. split; [reflexivity |]. unfold_world.
  split.
  { unfold BreakPoints.Add. change (TBreakPoint.address bp) with new_address.
    rewrite (BP_Remove_absent new_address); [done |].
    rewrite BP_Get_Remove. destruct (decide (new_address = address)); [done |].
    by apply Hfree. }
  split; [apply (BP_Get_Add_same bp) |]. split; [done |].
  split; [cbn; unfold flip_if; by destruct (decide _) |].
  split; [cbn; unfold flip_if; by destruct (decide _) |].
  split; [cbn; unfold flip_if; by destruct (decide _) |].
  split.
  - intros Hne. rewrite BP_Get_Add, BP_Get_Remove.
    cbn [bp edited_breakpoint TBreakPoint.address].
    destruct (decide (address = new_address)); [congruence |].
    by destruct (decide (address = address)).
  - split; [| done]. intros other Ho1 Ho2. rewrite BP_Get_Add, BP_Get_Remove.
    cbn [bp edited_breakpoint TBreakPoint.address].
    destruct (decide (other = new_address)); [done |].
    by destruct (decide (other = address)).
Qed.

End WidgetEdits.

Section WidgetEffects.
Context `{Collaborators}.

Ltac unfold_world :=
  unfold Update, emit_BreakpointsChanged, log, on_breakpoints, on_memchecks;
  cbn [breakpoints memchecks trace game_ini].

Lemma BP_elem_Get (bp : TBreakPoint.t Expression) (st : list (TBreakPoint.t Expression)) :
  bp ∈ st → is_Some (BreakPoints.GetBreakpoint (TBreakPoint.address bp) st).
Proof.
  induction 1 as [x st | x y st Hin IH]; rewrite BP_Get_cons.
  - destruct (decide _) as [_ | Hn]; [eauto | by destruct Hn].
  - destruct (decide _); eauto.
Qed.

Lemma MC_elem_Get (mc : TMemCheck.t Expression) (st : list (TMemCheck.t Expression)) :
  mc ∈ st → is_Some (MemChecks.GetMemCheck (TMemCheck.start_address mc) st).
Proof.
  induction 1 as [x st | x y st Hin IH]; rewrite MC_Get_cons.
  - destruct (decide _) as [_ | Hn]; [eauto | by destruct Hn].
  - destruct (decide _); eauto.
Qed.

Lemma OnClicked_returns_when_found (w : World) (col address : Z) (is_memcheck : bool) :
  (if is_memcheck
   then is_Some (MemChecks.GetMemCheck address (memchecks w))
   else is_Some (BreakPoints.GetBreakpoint address (breakpoints w))) →
  ∃ w', OnClicked (Some (mkItem col address is_memcheck)) w = Returned w'.
Proof.
  intros Hfound. unfold OnClicked. cbn [column ADDRESS_ROLE IS_MEMCHECK_ROLE].
  destruct (decide _); [eauto |]. destruct (decide _); [eauto |].
  destruct is_memcheck; destruct Hfound as [old Hold].
  - rewrite (EditMBP_found _ _ _ _ _ Hold). cbn. eauto.
  - rewrite (EditBreakpoint_found _ _ _ _ _ Hold). cbn. eauto.
Qed.

(** X6: a click on any cell of any row that [Update] builds from the
    registries returns: the entry the row was built from is found, so the
    pointer [EditBreakpoint] or [EditMBP] dereferences is never null.  This
    holds for every column, for cells without an item too, and whatever
    symbols the symbol table has. *)
Theorem X6_click_on_a_row_of_Update_returns
    (GetSymbolFromAddr : Z → option string) (w : World) (row : TableRow) (col : Z) :
  row ∈ Update_rows GetSymbolFromAddr w →
  ∃ w', OnClicked (row_item row col) w = Returned w'.
Proof.
  intros Hrow.
  assert (Hsome : ∃ w', OnClicked (Some (mkItem col (row_ADDRESS_ROLE row)
                                            (row_IS_MEMCHECK_ROLE row))) w = Returned w').
  { apply OnClicked_returns_when_found. unfold Update_rows in Hrow.
    apply elem_of_app in Hrow as [Hrow | Hrow];
      apply list_elem_of_fmap in Hrow as (x & -> & Hx); cbn.
    - by apply BP_elem_Get.
    - by apply MC_elem_Get. }
  assert (Hnone : ∃ w', OnClicked None w = Returned w') by (cbn; eauto).
  unfold row_item. destruct (decide _); [by destruct (row_symbol row) |].
  destruct (decide _); [done |]. by destruct (decide _).
Qed.

Lemma signalled_sound (evs : list Event) :
  signalled evs = true →
  ∃ pre, evs = pre ++ [Emit_BreakpointsChanged; Call_Update]
         ∧ Forall (λ e, quiet e = true) pre.
Proof.
  induction evs as [| e evs IH]; [done |]. intros Hs.
  assert (Hcases : (e = Emit_BreakpointsChanged ∧ evs = [Call_Update])
                   ∨ (quiet e = true ∧ signalled evs = true)).
  { cbn [signalled] in Hs.
    destruct e; try (apply andb_prop in Hs; by right).
    destruct evs as [| [] [|]]; try (apply andb_prop in Hs; by right). by left. }
  destruct Hcases as [[-> ->] | [Hq Hrest]].
  - exists []. split; [done | constructor].
  - destruct (IH Hrest) as (pre & -> & Hpre). exists (e :: pre).
    split; [done | by constructor].
Qed.

(** What an operation adds to the trace, given as a list that is checked by
    running [quiet] and [signalled]. *)
Lemma run_events_paired (w w' : World) (evs : list Event) :
  trace w' = trace w ++ evs →
  forallb quiet evs || signalled evs = true →
  ∃ evs', trace w' = trace w ++ evs'
          ∧ (Forall (λ e, quiet e = true) evs'
             ∨ ∃ pre, evs' = pre ++ [Emit_BreakpointsChanged; Call_Update]
                      ∧ Forall (λ e, quiet e = true) pre).
Proof.
  intros Ht Hc. exists evs. split; [done |].
  apply orb_prop in Hc as [Hq | Hs]; [left | right; by apply signalled_sound].
  apply Forall_forall. intros e He. rewrite forallb_forall in Hq.
  apply Hq. by apply list_elem_of_In.
Qed.

Ltac settle_paired :=
  first
    [ apply run_events_paired with (evs := []); [ by rewrite app_nil_r | reflexivity ]
    | eapply run_events_paired;
      [ unfold_world; rewrite <- ?app_assoc; cbn [app]; reflexivity | reflexivity ] ].

(** X7: the signal and the redraw come as a pair, once, at the end:
    whatever operation of the widget is run, the events it adds to the trace
    either contain neither an emission of [BreakpointsChanged] nor a call of
    [Update], or end with exactly one emission followed by exactly one call
    of [Update], with neither of them earlier. *)
Theorem X7_signal_and_redraw_come_last_and_together
    (op : Operation) (w w' : World) :
  run op w = Returned w' →
  ∃ evs, trace w' = trace w ++ evs
         ∧ (Forall (λ e, quiet e = true) evs
            ∨ ∃ pre, evs = pre ++ [Emit_BreakpointsChanged; Call_Update]
                     ∧ Forall (λ e, quiet e = true) pre).
Proof.
  intros Hrun. destruct op as [item | | | | item | | | | | address edit s | address edit s];
    cbn [run] in Hrun.
  - unfold OnClicked in Hrun. destruct item as [item |]; [| injection Hrun as <-; settle_paired].
    destruct (decide _); [injection Hrun as <-; settle_paired |].
    destruct (decide _).
    + injection Hrun as <-. destruct (IS_MEMCHECK_ROLE item); settle_paired.
    + destruct (IS_MEMCHECK_ROLE item).
      * destruct (MemChecks.GetMemCheck (ADDRESS_ROLE item) (memchecks w)) as [old |] eqn:Hold.
        -- rewrite (EditMBP_found _ _ _ _ _ Hold) in Hrun.
           destruct (EditMBP_addresses _ _ _ _) as [[[a e] []] |];
             injection Hrun as <-; settle_paired.
        -- unfold EditMBP in Hrun. by rewrite Hold in Hrun.
      * destruct (BreakPoints.GetBreakpoint (ADDRESS_ROLE item) (breakpoints w))
          as [old |] eqn:Hold.
        -- rewrite (EditBreakpoint_found _ _ _ _ _ Hold) in Hrun.
           destruct (edited_address _ _ _); injection Hrun as <-; settle_paired.
        -- unfold EditBreakpoint in Hrun. by rewrite Hold in Hrun.
  - injection Hrun as <-. settle_paired.
  - unfold OnLoad in Hrun. destruct (game_ini w) as [ini |]; cbn in Hrun;
      [| injection Hrun as <-; settle_paired].
    injection Hrun as <-.
    destruct (IniFile.GetLines "BreakPoints" ini), (IniFile.GetLines "MemoryBreakPoints" ini);
      settle_paired.
  - injection Hrun as <-. unfold OnSave.
    apply run_events_paired with (evs := [Ini_Save]); done.
  - unfold OnContextMenu_Delete in Hrun.
    destruct item as [item |]; [| injection Hrun as <-; settle_paired].
    destruct (IS_MEMCHECK_ROLE item); cbn [negb] in Hrun.
    + destruct (list_find _ (memchecks w)); injection Hrun as <-; settle_paired.
    + destruct (list_find _ (breakpoints w)); injection Hrun as <-; settle_paired.
  - injection Hrun as <-. settle_paired.
  - injection Hrun as <-. settle_paired.
  - injection Hrun as <-. settle_paired.
  - injection Hrun as <-. settle_paired.
  - destruct (BreakPoints.GetBreakpoint address (breakpoints w)) as [old |] eqn:Hold.
    + rewrite (EditBreakpoint_found _ _ _ _ _ Hold) in Hrun.
      destruct (edited_address _ _ _); injection Hrun as <-; settle_paired.
    + unfold EditBreakpoint in Hrun. by rewrite Hold in Hrun.
  - destruct (MemChecks.GetMemCheck address (memchecks w)) as [old |] eqn:Hold.
    + rewrite (EditMBP_found _ _ _ _ _ Hold) in Hrun.
      destruct (EditMBP_addresses _ _ _ _) as [[[a e] []] |];
        injection Hrun as <-; settle_paired.
    + unfold EditMBP in Hrun. by rewrite Hold in Hrun.
Qed.

(** X8: the per-game file is written by [OnSave] only: every other
    operation of the widget that returns leaves the file as it was. *)
Theorem X8_only_OnSave_writes_the_file (op : Operation) (w w' : World) :
  run op w = Returned w' →
  op ≠ Op_OnSave →
  game_ini w' = game_ini w.
Proof.
  intros Hrun Hop. destruct op as [item | | | | item | | | | | address edit s | address edit s];
    cbn [run] in Hrun; try done.
  - unfold OnClicked in Hrun. destruct item as [item |]; [| by injection Hrun as <-].
    destruct (decide _); [by injection Hrun as <- |].
    destruct (decide _).
    + injection Hrun as <-. by destruct (IS_MEMCHECK_ROLE item).
    + destruct (IS_MEMCHECK_ROLE item).
      * destruct (MemChecks.GetMemCheck (ADDRESS_ROLE item) (memchecks w)) as [old |] eqn:Hold.
        -- rewrite (EditMBP_found _ _ _ _ _ Hold) in Hrun.
           by destruct (EditMBP_addresses _ _ _ _) as [[[a e] []] |]; injection Hrun as <-.
        -- unfold EditMBP in Hrun. by rewrite Hold in Hrun.
      * destruct (BreakPoints.GetBreakpoint (ADDRESS_ROLE item) (breakpoints w))
          as [old |] eqn:Hold.
        -- rewrite (EditBreakpoint_found _ _ _ _ _ Hold) in Hrun.
           by destruct (edited_address _ _ _); injection Hrun as <-.
        -- unfold EditBreakpoint in Hrun. by rewrite Hold in Hrun.
  - by injection Hrun as <-.
  - unfold OnLoad in Hrun. destruct (game_ini w) as [ini |] eqn:Hini; cbn in Hrun;
      [| injection Hrun as <-; done].
    injection Hrun as <-.
    by destruct (IniFile.GetLines "BreakPoints" ini),
                (IniFile.GetLines "MemoryBreakPoints" ini).
  - unfold OnContextMenu_Delete in Hrun.
    destruct item as [item |]; [| by injection Hrun as <-].
    destruct (IS_MEMCHECK_ROLE item); cbn [negb] in Hrun.
    + by destruct (list_find _ (memchecks w)); injection Hrun as <-.
    + by destruct (list_find _ (breakpoints w)); injection Hrun as <-.
  - by injection Hrun as <-.
  - by injection Hrun as <-.
  - by injection Hrun as <-.
  - by injection Hrun as <-.
  - destruct (BreakPoints.GetBreakpoint address (breakpoints w)) as [old |] eqn:Hold.
    + rewrite (EditBreakpoint_found _ _ _ _ _ Hold) in Hrun.
      by destruct (edited_address _ _ _); injection Hrun as <-.
    + unfold EditBreakpoint in Hrun. by rewrite Hold in Hrun.
  - destruct (MemChecks.GetMemCheck address (memchecks w)) as [old |] eqn:Hold.
    + rewrite (EditMBP_found _ _ _ _ _ Hold) in Hrun.
      by destruct (EditMBP_addresses _ _ _ _) as [[[a e] []] |]; injection Hrun as <-.
    + unfold EditMBP in Hrun. by rewrite Hold in Hrun.
Qed.

Lemma BP_list_find_Get (a : Z) (st : list (TBreakPoint.t Expression)) :
  list_find (BreakPoints.at_address a) st = None ↔ BreakPoints.GetBreakpoint a st = None.
Proof.
  unfold BreakPoints.GetBreakpoint. by destruct (list_find _ st).
Qed.

Lemma MC_list_find_Get (a : Z) (st : list (TMemCheck.t Expression)) :
  list_find (MemChecks.at_address a) st = None ↔ MemChecks.GetMemCheck a st = None.
Proof.
  unfold MemChecks.GetMemCheck. by destruct (list_find _ st).
Qed.

(** X9: the Delete action of the context menu acts on the registry its row
    belongs to and on the address of the row only.  On a row whose entry is
    no longer in its registry nothing happens at all: no registry call, no
    signal, no redraw.  Otherwise nothing is found at the address
    afterwards, the entries at all other addresses of that registry are
    found as before, and the other registry is untouched. *)
Theorem X9_context_menu_Delete
    (w : World) (col address : Z) (is_memcheck : bool) :
  ∃ w',
    OnContextMenu_Delete (Some (mkItem col address is_memcheck)) w = Returned w'
    ∧ (if is_memcheck
       then breakpoints w' = breakpoints w
            ∧ MemChecks.GetMemCheck address (memchecks w') = None
            ∧ (∀ other, other ≠ address →
                 MemChecks.GetMemCheck other (memchecks w')
                 = MemChecks.GetMemCheck other (memchecks w))
            ∧ (MemChecks.GetMemCheck address (memchecks w) = None → w' = w)
       else memchecks w' = memchecks w
            ∧ BreakPoints.GetBreakpoint address (breakpoints w') = None
            ∧ (∀ other, other ≠ address →
                 BreakPoints.GetBreakpoint other (breakpoints w')
                 = BreakPoints.GetBreakpoint other (breakpoints w))
            ∧ (BreakPoints.GetBreakpoint address (breakpoints w) = None → w' = w)).
Proof.
  unfold OnContextMenu_Delete. cbn [ADDRESS_ROLE IS_MEMCHECK_ROLE].
  destruct is_memcheck; cbn [negb].
  - destruct (list_find _ (memchecks w)) as [found |] eqn:Hfind.
    + eexists. split; [reflexivity |]. unfold_world. split; [done |].
      split; [rewrite MC_Get_Remove_at; by destruct (decide _) |].
      split; [intros other Ho; rewrite MC_Get_Remove_at; by destruct (decide _) |].
      intros Hnone. apply MC_list_find_Get in Hnone. congruence.
    + exists w. split; [done |]. apply MC_list_find_Get in Hfind. by repeat split.
  - destruct (list_find _ (breakpoints w)) as [found |] eqn:Hfind.
    + eexists. split; [reflexivity |]. unfold_world. split; [done |].
      split; [rewrite BP_Get_Remove; by destruct (decide _) |].
      split; [intros other Ho; rewrite BP_Get_Remove; by destruct (decide _) |].
      intros Hnone. apply BP_list_find_Get in Hnone. congruence.
    + exists w. split; [done |]. apply BP_list_find_Get in Hfind. by repeat split.
Qed.

(** The registries and the file after [OnLoad]. *)
Lemma OnLoad_result (w : World) :
  ∃ w', OnLoad w = Returned w'
    ∧ game_ini w' = game_ini w
    ∧ (game_ini w = None →
       breakpoints w' = breakpoints w ∧ memchecks w' = memchecks w)
    ∧ (∀ ini, game_ini w = Some ini →
         breakpoints w'
         = match IniFile.GetLines "BreakPoints" ini with
           | Some new_bps => BreakPoints_AddFromStrings new_bps []
           | None => breakpoints w
           end
         ∧ memchecks w'
           = match IniFile.GetLines "MemoryBreakPoints" ini with
             | Some new_mcs => MemChecks_AddFromStrings new_mcs []
             | None => memchecks w
             end).
Proof.
  unfold OnLoad. destruct (game_ini w) as [file |] eqn:Hfile; cbn [IniFile.Load negb].
  - eexists. split; [reflexivity |].
    split; [by destruct (IniFile.GetLines "BreakPoints" file),
                        (IniFile.GetLines "MemoryBreakPoints" file) |].
    split; [done |]. intros ini [= <-].
    by destruct (IniFile.GetLines "BreakPoints" file),
                (IniFile.GetLines "MemoryBreakPoints" file).
  - exists w. split; [done |]. split; [done |]. split; [done |]. by intros ini.
Qed.

(** X10: loading twice is loading once: a second [OnLoad] right after a
    first one returns with the same two registries and the same file. *)
Theorem X10_OnLoad_is_idempotent (w w1 : World) :
  OnLoad w = Returned w1 →
  ∃ w2, OnLoad w1 = Returned w2
        ∧ breakpoints w2 = breakpoints w1
        ∧ memchecks w2 = memchecks w1
        ∧ game_ini w2 = game_ini w1.
Proof.
  intros Hload.
  destruct (OnLoad_result w) as (w1' & E1 & Hi1 & Hn1 & Hs1).
  rewrite E1 in Hload. injection Hload as ->.
  destruct (OnLoad_result w1) as (w2 & E2 & Hi2 & Hn2 & Hs2).
  exists w2. split; [done |]. split; [| split; [| done]].
  - destruct (game_ini w) as [ini |] eqn:Hini.
    + destruct (Hs1 ini eq_refl) as [Hb1 _].
      destruct (Hs2 ini) as [Hb2 _]; [by rewrite Hi1 |].
      revert Hb1 Hb2. destruct (IniFile.GetLines "BreakPoints" ini); congruence.
    + apply Hn2. by rewrite Hi1.
  - destruct (game_ini w) as [ini |] eqn:Hini.
    + destruct (Hs1 ini eq_refl) as [_ Hm1].
      destruct (Hs2 ini) as [_ Hm2]; [by rewrite Hi1 |].
      revert Hm1 Hm2. destruct (IniFile.GetLines "MemoryBreakPoints" ini); congruence.
    + apply Hn2. by rewrite Hi1.
Qed.

Lemma BP_count_Get_None (a : Z) (st : list (TBreakPoint.t Expression)) :
  BreakPoints.count a st = 0%nat → BreakPoints.GetBreakpoint a st = None.
Proof. apply BP_Get_None_count. Qed.

Lemma MC_count_app (a : Z) (st1 st2 : list (TMemCheck.t Expression)) :
  MemChecks.count a (st1 ++ st2) = (MemChecks.count a st1 + MemChecks.count a st2)%nat.
Proof. unfold MemChecks.count. by rewrite filter_app, length_app. Qed.

(** Reading back the lines of a registry that has one breakpoint per address
    appends its breakpoints, in order, to a registry that has none of their
    addresses. *)
Lemma BP_AddFromStrings_GetStrings (acc st : list (TBreakPoint.t Expression)) :
  Forall (λ bp, bp_of_line (bp_to_line bp) = Some bp) st →
  BreakPoints.wf (acc ++ st) →
  BreakPoints_AddFromStrings (BreakPoints_GetStrings st) acc = acc ++ st.
Proof.
  unfold BreakPoints_AddFromStrings, BreakPoints_GetStrings.
  revert acc. induction st as [| bp st IH]; intros acc Hrt Hwf.
  - by rewrite app_nil_r.
  - inversion Hrt as [| ? ? Hbp Hrest]; subst. cbn [fmap list_fmap foldl].
    rewrite Hbp. cbn [from_option].
    assert (Hfresh : BreakPoints.GetBreakpoint (TBreakPoint.address bp) acc = None).
    { apply BP_Get_None_count. specialize (Hwf (TBreakPoint.address bp)).
      rewrite BP_count_app, BP_count_cons in Hwf.
      destruct (decide _) as [_ | Hn]; [lia | by destruct Hn]. }
    unfold BreakPoints.Add. rewrite (BP_Remove_absent _ _ Hfresh).
    fold (BreakPoints_GetStrings st).
    change (foldl _ (acc ++ [bp]) (bp_to_line <$> st))
      with (foldl (λ acc0 line, from_option (λ bp0, BreakPoints.Add bp0 acc0) acc0
                                  (bp_of_line line)) (acc ++ [bp]) (bp_to_line <$> st)).
    rewrite IH; [by rewrite <- app_assoc | done | by rewrite <- app_assoc].
Qed.

Lemma MC_AddFromStrings_GetStrings (acc st : list (TMemCheck.t Expression)) :
  Forall (λ mc, mc_of_line (mc_to_line mc) = Some mc) st →
  MemChecks.wf (acc ++ st) →
  MemChecks_AddFromStrings (MemChecks_GetStrings st) acc = acc ++ st.
Proof.
  unfold MemChecks_AddFromStrings, MemChecks_GetStrings.
  revert acc. induction st as [| mc st IH]; intros acc Hrt Hwf.
  - by rewrite app_nil_r.
  - inversion Hrt as [| ? ? Hmc Hrest]; subst. cbn [fmap list_fmap foldl].
    rewrite Hmc. cbn [from_option].
    assert (Hfresh : MemChecks.GetMemCheck (TMemCheck.start_address mc) acc = None).
    { apply MC_Get_None_count. specialize (Hwf (TMemCheck.start_address mc)).
      rewrite MC_count_app, MC_count_cons in Hwf.
      destruct (decide _) as [_ | Hn]; [lia | by destruct Hn]. }
    rewrite (MC_Add_absent _ _ Hfresh).
    rewrite IH; [by rewrite <- app_assoc | done | by rewrite <- app_assoc].
Qed.

(** The registries after [OnSave] followed by [OnLoad]: the lines written
    under the two section names are the lines read. *)
Lemma OnSave_then_OnLoad (w : World) :
  ∃ w1 w2,
    OnSave w = Returned w1
    ∧ OnLoad w1 = Returned w2
    ∧ breakpoints w2
      = BreakPoints_AddFromStrings (BreakPoints_GetStrings (breakpoints w)) []
    ∧ memchecks w2
      = MemChecks_AddFromStrings (MemChecks_GetStrings (memchecks w)) [].
Proof.
  unfold OnSave. eexists _, _. split; [reflexivity |].
  unfold OnLoad. cbn [game_ini IniFile.Load IniFile.Save negb].
  unfold IniFile.GetLines, IniFile.SetLines.
  rewrite lookup_insert_eq, lookup_insert_ne, lookup_insert_eq by done.
  split; [reflexivity |]. done.
Qed.

(** X11: saving and loading gives the registries back.  When each registry
    has at most one entry per key and the line format reads back every entry
    it writes, [OnSave] followed by [OnLoad] returns with both registries
    exactly as they were, entries and order. *)
Theorem X11_OnSave_then_OnLoad_restores_the_registries (w : World) :
  BreakPoints.wf (breakpoints w) →
  MemChecks.wf (memchecks w) →
  Forall (λ bp, bp_of_line (bp_to_line bp) = Some bp) (breakpoints w) →
  Forall (λ mc, mc_of_line (mc_to_line mc) = Some mc) (memchecks w) →
  ∃ w1 w2,
    OnSave w = Returned w1
    ∧ OnLoad w1 = Returned w2
    ∧ breakpoints w2 = breakpoints w
    ∧ memchecks w2 = memchecks w.
Proof.
  intros Hwb Hwm Hrb Hrm.
  destruct (OnSave_then_OnLoad w) as (w1 & w2 & Hsave & Hload & Hb & Hm).
  exists w1, w2. split; [done |]. split; [done |].
  rewrite Hb, Hm. split.
  - by apply (BP_AddFromStrings_GetStrings []).
  - by apply (MC_AddFromStrings_GetStrings []).
Qed.

(** X12: what becomes of a condition text.  [AddAddressMBP] and
    [AddRangedMBP] store no condition for the empty text, without handing it
    to the parser, and the parser's answer for every other text.
    [EditBreakpoint] and [EditMBP] on the Condition column hand every text to
    the parser, the empty one included, and store its answer: a text that
    does not parse is not rejected, the edit goes through and the entry is
    left without a condition. *)
Theorem X12_what_becomes_of_a_condition_text
    (w : World) (a : Z) (on_read on_write do_log do_break : bool) (text : string) :
  (∀ to, ∃ w' mc,
     AddRangedMBP a to on_read on_write do_log do_break text w = Returned w'
     ∧ MemChecks.GetMemCheck a (memchecks w') = Some mc
     ∧ TMemCheck.condition mc = if decide (text = ""%string) then None else TryParse text)
  ∧ (∃ w' mc,
       AddAddressMBP a on_read on_write do_log do_break text w = Returned w'
       ∧ MemChecks.GetMemCheck a (memchecks w') = Some mc
       ∧ TMemCheck.condition mc = if decide (text = ""%string) then None else TryParse text)
  ∧ (∀ old_mbp, MemChecks.GetMemCheck a (memchecks w) = Some old_mbp →
       ∃ w' mc,
         EditMBP a CONDITION_COLUMN (Some text) w = Returned w'
         ∧ MemChecks.GetMemCheck a (memchecks w') = Some mc
         ∧ TMemCheck.condition mc = TryParse text
         ∧ Emit_BreakpointsChanged ∈ trace w')
  ∧ (∀ old_bp, BreakPoints.GetBreakpoint a (breakpoints w) = Some old_bp →
       ∃ w' bp,
         EditBreakpoint a CONDITION_COLUMN (Some text) w = Returned w'
         ∧ BreakPoints.GetBreakpoint a (breakpoints w') = Some bp
         ∧ TBreakPoint.condition bp = TryParse text
         ∧ Emit_BreakpointsChanged ∈ trace w').
Proof.
  split; [| split; [| split]].
  - intros to. unfold AddRangedMBP. eexists _, _. split; [reflexivity |]. unfold_world.
    split; [apply (MC_Get_Add_same (TMemCheck.mk a to _ true _ _ _ _ _)) |]. done.
  - unfold AddAddressMBP. eexists _, _. split; [reflexivity |]. unfold_world.
    split; [apply (MC_Get_Add_same (TMemCheck.mk a a _ false _ _ _ _ _)) |]. done.
  - intros old_mbp Hold. rewrite (EditMBP_found _ _ _ _ _ Hold).
    destruct (MC_Get_Some _ _ _ Hold) as [_ Hkey].
    unfold EditMBP_addresses.
    destruct (decide (CONDITION_COLUMN = ADDRESS_COLUMN ∨ _)) as [[? | ?] | _];
      [done | done |].
    rewrite Hkey.
    set (mbp := edited_memcheck old_mbp CONDITION_COLUMN (Some text) a
                  (TMemCheck.end_address old_mbp)).
    eexists _, mbp. split; [reflexivity |]. cbn zeta. unfold_world.
    split; [apply (MC_Get_Add_same mbp) |].
    split; [cbn; by destruct (decide _) |].
    rewrite !elem_of_app, !list_elem_of_singleton. auto.
  - intros old_bp Hold. rewrite (EditBreakpoint_found _ _ _ _ _ Hold).
    unfold edited_address.
    destruct (decide (CONDITION_COLUMN = ADDRESS_COLUMN)); [done |].
    set (bp := edited_breakpoint old_bp CONDITION_COLUMN (Some text) a).
    eexists _, bp. split; [reflexivity |]. unfold_world.
    split; [apply (BP_Get_Add_same bp) |].
    split; [cbn; by destruct (decide _) |].
    rewrite !elem_of_app, !list_elem_of_singleton. auto.
Qed.

End WidgetEffects.

(** * The toolbar and the icon delegate *)

Lemma actions_after_snoc (calls : list (bool * bool)) (call : bool * bool) :
  actions_after (calls ++ [call])
  = UpdateButtonsEnabled call.1 call.2 (actions_after calls).
Proof. unfold actions_after. by rewrite foldl_app. Qed.

(** X13: after [CreateWidgets] and any series of calls of
    [UpdateButtonsEnabled], Clear is enabled, and New, Load and Save are
    enabled or disabled together: enabled exactly when the core was
    initialised at the last call made while the panel was visible, and
    disabled when there was no such call.  Calls made while the panel is
    not visible change nothing. *)
Theorem X13_toolbar_actions (calls : list (bool * bool)) :
  clear_enabled (actions_after calls) = true
  ∧ load_enabled (actions_after calls) = new_enabled (actions_after calls)
  ∧ save_enabled (actions_after calls) = new_enabled (actions_after calls)
  ∧ new_enabled (actions_after calls)
    = match last (filter (λ call, call.1 = true) calls) with
      | Some call => call.2
      | None => false
      end.
Proof.
  induction calls as [| [isVisible is_initialised] calls IH] using rev_ind; [done |].
  rewrite actions_after_snoc, filter_app. unfold UpdateButtonsEnabled.
  destruct IH as (Hclear & Hload & Hsave & Hnew). cbn [fst snd].
  destruct isVisible; cbn [negb].
  - rewrite filter_cons_True by done. rewrite filter_nil, last_snoc. by cbn.
  - rewrite filter_cons_False by done. rewrite filter_nil, app_nil_r. done.
Qed.

(** X14: [CustomDelegate::paint] centres the pixmap in its cell.  For a cell
    whose coordinates and sizes are [int]s and a pixmap that is not larger
    than the cell, the pixmap is drawn inside the cell, the margin right of
    it is the margin left of it or one pixel more, and the same holds for
    the margins below and above; all the numbers computed on the way are
    [int]s, so nothing overflows.  Nothing is drawn for a null pixmap. *)
Theorem X14_paint_centres_the_pixmap (left top r_width r_height pix_width pix_height : Z) :
  0 ≤ pix_width ≤ r_width → 0 ≤ pix_height ≤ r_height →
  is_int r_width → is_int r_height →
  is_int left → is_int top → is_int (left + r_width) → is_int (top + r_height) →
  paint_pixmap left top r_width r_height None = None
  ∧ ∃ x y,
      paint_pixmap left top r_width r_height (Some (pix_width, pix_height)) = Some (x, y)
      ∧ left ≤ x ∧ x + pix_width ≤ left + r_width
      ∧ top ≤ y ∧ y + pix_height ≤ top + r_height
      ∧ 0 ≤ (left + r_width - (x + pix_width)) - (x - left) ≤ 1
      ∧ 0 ≤ (top + r_height - (y + pix_height)) - (y - top) ≤ 1
      ∧ is_int (r_width - pix_width) ∧ is_int (r_height - pix_height)
      ∧ is_int x ∧ is_int y.
Proof.
  unfold is_int. intros Hw Hh Hrw Hrh Hl Ht Hr Hb. split; [done |].
  cbn [paint_pixmap fst snd]. eexists _, _. split; [reflexivity |].
  rewrite !Z.quot_div_nonneg by lia.
  pose proof (Z.div_mod (r_width - pix_width) 2 ltac:(done)) as Hqw.
  pose proof (Z.div_mod (r_height - pix_height) 2 ltac:(done)) as Hqh.
  pose proof (Z.mod_pos_bound (r_width - pix_width) 2 ltac:(done)) as Hbw.
  pose proof (Z.mod_pos_bound (r_height - pix_height) 2 ltac:(done)) as Hbh.
  lia.
Qed.

(** * The table and the registries *)

Section TableFacts.
Context `{Collaborators}.
Variable GetSymbolFromAddr : Z → option string.

Lemma BP_wf_elem_Get (bp : TBreakPoint.t Expression) (st : list (TBreakPoint.t Expression)) :
  BreakPoints.wf st → bp ∈ st →
  BreakPoints.GetBreakpoint (TBreakPoint.address bp) st = Some bp.
Proof.
  induction st as [| x st IH]; intros Hwf Hin; [by apply elem_of_nil in Hin |].
  assert (Hwf' : BreakPoints.wf st).
  { intros a. specialize (Hwf a). rewrite BP_count_cons in Hwf. lia. }
  rewrite BP_Get_cons. apply elem_of_cons in Hin as [-> | Hin].
  - destruct (decide _) as [_ | Hn]; [done | by destruct Hn].
  - destruct (decide _) as [Hx | Hx]; [| by apply IH].
    specialize (Hwf (TBreakPoint.address bp)). rewrite BP_count_cons in Hwf.
    destruct (decide _) as [_ | Hn]; [| by destruct Hn].
    destruct (BP_elem_Get bp st Hin) as [found Hfound].
    destruct (BreakPoints.count (TBreakPoint.address bp) st) eqn:Hc; [| lia].
    apply BP_Get_None_count in Hc. congruence.
Qed.

Lemma MC_wf_elem_Get (mc : TMemCheck.t Expression) (st : list (TMemCheck.t Expression)) :
  MemChecks.wf st → mc ∈ st →
  MemChecks.GetMemCheck (TMemCheck.start_address mc) st = Some mc.
Proof.
  induction st as [| x st IH]; intros Hwf Hin; [by apply elem_of_nil in Hin |].
  assert (Hwf' : MemChecks.wf st).
  { intros a. specialize (Hwf a). rewrite MC_count_cons in Hwf. lia. }
  rewrite MC_Get_cons. apply elem_of_cons in Hin as [-> | Hin].
  - destruct (decide _) as [_ | Hn]; [done | by destruct Hn].
  - destruct (decide _) as [Hx | Hx]; [| by apply IH].
    specialize (Hwf (TMemCheck.start_address mc)). rewrite MC_count_cons in Hwf.
    destruct (decide _) as [_ | Hn]; [| by destruct Hn].
    destruct (MC_elem_Get mc st Hin) as [found Hfound].
    destruct (MemChecks.count (TMemCheck.start_address mc) st) eqn:Hc; [| lia].
    apply MC_Get_None_count in Hc. congruence.
Qed.

(** X15: the table [Update] builds has one row per entry of the two
    registries, and, when each registry has at most one entry per key, the
    two roles stored in the first item of a row identify the entry the row
    shows: looking the address role up in the registry named by the
    memory-check role finds an entry, and the row is the row of that entry.
    A click on the row therefore edits the entry that the row displays. *)
Theorem X15_the_roles_of_a_row_identify_its_entry (w : World) :
  BreakPoints.wf (breakpoints w) →
  MemChecks.wf (memchecks w) →
  length (Update_rows GetSymbolFromAddr w)
  = (length (breakpoints w) + length (memchecks w))%nat
  ∧ ∀ row, row ∈ Update_rows GetSymbolFromAddr w →
      if row_IS_MEMCHECK_ROLE row
      then ∃ mbp,
             MemChecks.GetMemCheck (row_ADDRESS_ROLE row) (memchecks w) = Some mbp
             ∧ row = memcheck_row GetSymbolFromAddr mbp
      else ∃ bp,
             BreakPoints.GetBreakpoint (row_ADDRESS_ROLE row) (breakpoints w) = Some bp
             ∧ row = breakpoint_row GetSymbolFromAddr bp.
Proof.
  intros Hwb Hwm. unfold Update_rows. split; [by rewrite length_app, !length_fmap |].
  intros row Hrow.
  apply elem_of_app in Hrow as [Hrow | Hrow];
    apply list_elem_of_fmap in Hrow as (x & -> & Hx); cbn.
  - exists x. split; [by apply BP_wf_elem_Get | done].
  - exists x. split; [by apply MC_wf_elem_Get | done].
Qed.

End TableFacts.

(** * The statements at concrete inputs

    The world of the examples has one breakpoint at 0x80003000 and one watch
    of 0x80004000..0x80004010; see [Sample.world]. *)

Local Open Scope string_scope.

(** C1 at the sample world, with texts that are no hexadecimal numbers. *)
Lemma C1_witness :
  @EditBreakpoint (Sample.collaborators false) 0x80003000 ADDRESS_COLUMN (Some "zz")
    (Sample.world false true) = Returned (Sample.world false true)
  ∧ @EditMBP (Sample.collaborators false) 0x80004000 ADDRESS_COLUMN (Some "8000400g")
      (Sample.world false true) = Returned (Sample.world false true)
  ∧ @EditMBP (Sample.collaborators false) 0x80004000 END_ADDRESS_COLUMN (Some "8000400g")
      (Sample.world false true) = Returned (Sample.world false true).
Proof.
  split.
  - apply (@C1_invalid_address_text_is_dropped_silently (Sample.collaborators false)
             (Sample.world false true) 0x80003000 "zz" eq_refl).
    eexists. reflexivity.
  - apply (@C1_invalid_address_text_is_dropped_silently (Sample.collaborators false)
             (Sample.world false true) 0x80004000 "8000400g" eq_refl).
    eexists. reflexivity.
Defined.

(** C1, as the specification states it, fails: a rejected edit shows
    nothing.  After [EditBreakpoint] on the address column with the text zz,
    the trace has no new event at all, so none that a user can see. *)
Lemma C1_counterexample_nothing_is_surfaced :
  ¬ rejected_with_feedback (Sample.world false true)
      (@EditBreakpoint (Sample.collaborators false) 0x80003000 ADDRESS_COLUMN (Some "zz")
         (Sample.world false true)).
Proof.
  intros (w' & Hret & _ & _ & evs & e & Htrace & He & _).
  assert (Hrun : @EditBreakpoint (Sample.collaborators false) 0x80003000 ADDRESS_COLUMN
                   (Some "zz") (Sample.world false true)
                 = Returned (Sample.world false true)) by reflexivity.
  rewrite Hrun in Hret. injection Hret as <-.
  change (trace (Sample.world false true)) with (@nil Event) in Htrace.
  cbn [app] in Htrace. subst evs. by apply elem_of_nil in He.
Qed.

(** C3, as the specification states it, fails: not every [EditBreakpoint]
    call on an existing breakpoint removes and adds.  On the address column
    with the text zz the call returns before it has touched the registry. *)
Lemma C3_counterexample_a_rejected_edit_removes_nothing :
  ¬ removes_then_adds (Sample.world false true)
      (@EditBreakpoint (Sample.collaborators false) 0x80003000 ADDRESS_COLUMN (Some "zz")
         (Sample.world false true)).
Proof.
  intros (w' & evs & Hret & Htrace).
  assert (Hrun : @EditBreakpoint (Sample.collaborators false) 0x80003000 ADDRESS_COLUMN
                   (Some "zz") (Sample.world false true)
                 = Returned (Sample.world false true)) by reflexivity.
  rewrite Hrun in Hret. injection Hret as <-.
  change (trace (Sample.world false true)) with (@nil Event) in Htrace.
  cbn [app] in Htrace. discriminate Htrace.
Qed.

(** C3 at the sample world: the breakpoint is moved to 0x80003004, where no
    breakpoint is. *)
Lemma C3_witness :
  ∃ w', @EditBreakpoint (Sample.collaborators false) 0x80003000 ADDRESS_COLUMN
          (Some "80003004") (Sample.world false true) = Returned w'
        ∧ trace w' = [Mutated BreakPointsStore M_Remove; Mutated BreakPointsStore M_Add;
                      Emit_BreakpointsChanged; Call_Update]
        ∧ BreakPoints.count 0x80003004 (breakpoints w') = 1%nat
        ∧ BreakPoints.count 0x80003000 (breakpoints w') = 0%nat.
Proof.
  destruct (@C3_EditBreakpoint_removes_then_adds (Sample.collaborators false)
              (Sample.world false true) 0x80003000 ADDRESS_COLUMN (Some "80003004")
              (Sample.bp_3000 true) 0x80003004 eq_refl eq_refl)
    as (w' & bp & Hret & _ & _ & Htrace & _ & _ & Hfree & _ & Hold & _).
  exists w'. split; [exact Hret |]. split; [exact Htrace |].
  split; [apply Hfree; by right | apply Hold; discriminate].
Defined.

(** C4, as the specification states it, fails twice.  An [EditMBP] call on
    the end-address column with the text 8000400g leaves the start address
    alone and makes no [Add]: it returns before.  An [EditMBP] call on the
    address column with the text of the address the watch already has
    leaves the start address as it is, makes a [Remove] after its [Add], and
    no watch is left at the address. *)
Lemma C4_counterexample_no_Add_or_a_Remove :
  ¬ adds_without_removing (Sample.world false true) 0x80004000
      (@EditMBP (Sample.collaborators false) 0x80004000 END_ADDRESS_COLUMN
         (Some "8000400g") (Sample.world false true))
  ∧ ¬ adds_without_removing (Sample.world false true) 0x80004000
        (@EditMBP (Sample.collaborators false) 0x80004000 ADDRESS_COLUMN
           (Some "80004000") (Sample.world false true)).
Proof.
  split.
  - intros (w' & evs & Hret & Htrace & Hadd & _).
    assert (Hrun : @EditMBP (Sample.collaborators false) 0x80004000 END_ADDRESS_COLUMN
                     (Some "8000400g") (Sample.world false true)
                   = Returned (Sample.world false true)) by reflexivity.
    rewrite Hrun in Hret. injection Hret as <-.
    change (trace (Sample.world false true)) with (@nil Event) in Htrace.
    cbn [app] in Htrace. subst evs. by apply elem_of_nil in Hadd.
  - intros (w' & evs & Hret & _ & _ & _ & Hcount).
    assert (Hrun : ∃ v, @EditMBP (Sample.collaborators false) 0x80004000 ADDRESS_COLUMN
                          (Some "80004000") (Sample.world false true) = Returned v
                        ∧ MemChecks.count 0x80004000 (memchecks v) = 0%nat)
      by (eexists; split; reflexivity).
    destruct Hrun as (v & Hv & Hnone). rewrite Hv in Hret. injection Hret as <-.
    rewrite Hnone in Hcount. discriminate Hcount.
Qed.

(** C4 at the sample world: the end address of the watch is edited. *)
Lemma C4_witness :
  ∃ w' mbp,
    @EditMBP (Sample.collaborators false) 0x80004000 END_ADDRESS_COLUMN
      (Some "80004020") (Sample.world false true) = Returned w'
    ∧ MemChecks.GetMemCheck 0x80004000 (memchecks w') = Some mbp
    ∧ TMemCheck.end_address mbp = 0x80004020%Z
    ∧ MemChecks.count 0x80004000 (memchecks w') = 1%nat
    ∧ length (memchecks w') = 1%nat.
Proof.
  destruct (@C4_EditMBP_adds_in_place (Sample.collaborators false)
              (Sample.world false true) 0x80004000 END_ADDRESS_COLUMN (Some "80004020")
              Sample.mc_4000 0x80004000 0x80004020)
    as [_ (w' & mbp & Hret & _ & _ & _ & Hget & _ & Hend & _ & Hcount & Hlen & _)].
  - intros a. change (memchecks (Sample.world false true)) with [Sample.mc_4000].
    rewrite MC_count_cons. change (MemChecks.count a []) with 0%nat.
    destruct (decide _); lia.
  - reflexivity.
  - reflexivity.
  - exists w', mbp. split; [exact Hret |]. split; [exact Hget |].
    split; [exact Hend |]. split; [exact Hcount | exact Hlen].
Defined.

(** C5 at the sample world: a breakpoint is added at 0x80003100. *)
Lemma C5_witness :
  ∃ w' evs,
    @run (Sample.collaborators false) (Op_AddBP 0x80003100) (Sample.world false true)
    = Returned w'
    ∧ trace w' = (trace (Sample.world false true) ++ evs)%list
    ∧ notified evs
    ∧ Emit_BreakpointsChanged ∈ evs.
Proof.
  eexists.
  destruct (@C5_mutation_is_followed_by_BreakpointsChanged (Sample.collaborators false)
              (Op_AddBP 0x80003100) (Sample.world false true) _ eq_refl)
    as (evs & Htrace & Hnotified & Hemit).
  exists evs. split; [reflexivity |]. split; [exact Htrace |].
  split; [exact Hnotified |]. apply Hemit. left. intros Heq.
  apply (f_equal length) in Heq. lazy in Heq. discriminate Heq.
Defined.

(** Two edits of the Active column of the sample breakpoint, run: the entry
    found afterwards has the [is_temporary] of a default-constructed
    breakpoint. *)
Lemma sample_two_edits (dflt temporary : bool) :
  ∃ w1 w2,
    @EditBreakpoint (Sample.collaborators dflt) 0x80003000 ENABLED_COLUMN None
      (Sample.world dflt temporary) = Returned w1
    ∧ @EditBreakpoint (Sample.collaborators dflt) 0x80003000 ENABLED_COLUMN None w1
      = Returned w2
    ∧ BreakPoints.GetBreakpoint 0x80003000 (breakpoints w2)
      = Some (TBreakPoint.mk 0x80003000 true dflt false true None).
Proof. eexists _, _. split; [reflexivity |]. split; reflexivity. Qed.

(** The breakpoint of the sample world does not come back as it was after
    two [EditBreakpoint] calls on the Active column: [is_temporary] has the
    value of a default-constructed breakpoint.  Whichever value that default
    has, a breakpoint with the other value is changed. *)
Lemma sample_is_temporary_is_not_kept :
  ¬ restores_breakpoint
      (@EditBreakpoint (Sample.collaborators false) 0x80003000 ENABLED_COLUMN None)
      0x80003000 (Sample.world false true)
  ∧ ¬ restores_breakpoint
        (@EditBreakpoint (Sample.collaborators true) 0x80003000 ENABLED_COLUMN None)
        0x80003000 (Sample.world true false).
Proof.
  split; intros Hr; destruct (Hr _ eq_refl) as (w1 & w2 & E1 & E2 & Hget).
  - destruct (sample_two_edits false true) as (v1 & v2 & F1 & F2 & Hfound).
    rewrite F1 in E1. injection E1 as <-. rewrite F2 in E2. injection E2 as <-.
    rewrite Hfound in Hget. unfold Sample.bp_3000 in Hget. discriminate Hget.
  - destruct (sample_two_edits true false) as (v1 & v2 & F1 & F2 & Hfound).
    rewrite F1 in E1. injection E1 as <-. rewrite F2 in E2. injection E2 as <-.
    rewrite Hfound in Hget. unfold Sample.bp_3000 in Hget. discriminate Hget.
Qed.

(** C8 at the sample world, on a temporary breakpoint: after the two edits
    of the Active column the breakpoint is enabled as before and is no
    longer temporary. *)
Lemma C8_witness :
  ∃ w1 w2 bp2,
    TBreakPoint.is_temporary (Sample.bp_3000 true) = true
    ∧ @EditBreakpoint (Sample.collaborators false) 0x80003000 ENABLED_COLUMN None
        (Sample.world false true) = Returned w1
    ∧ @EditBreakpoint (Sample.collaborators false) 0x80003000 ENABLED_COLUMN None w1
      = Returned w2
    ∧ BreakPoints.GetBreakpoint 0x80003000 (breakpoints w2) = Some bp2
    ∧ TBreakPoint.is_enabled bp2 = true
    ∧ TBreakPoint.is_temporary bp2 = false
    ∧ TBreakPoint.condition bp2 = None.
Proof.
  destruct (@C8_two_edits_restore_is_enabled_and_reset_is_temporary
              (Sample.collaborators false) (Sample.world false true) 0x80003000)
    as [_ Hedit].
  destruct (Hedit None (Sample.bp_3000 true) eq_refl)
    as (w1 & w2 & bp1 & bp2 & E1 & _ & _ & E2 & Hget & _ & Hen & _ & _ & _ & Htmp & Hcond).
  exists w1, w2, bp2. split; [reflexivity |]. split; [exact E1 |]. split; [exact E2 |].
  split; [exact Hget |]. split; [exact Hen |]. split; [exact Htmp |].
  apply Hcond; [reflexivity |]. intros c Hc. discriminate Hc.
Defined.

(** C10 at the sample world: the only watch is gone. *)
Lemma C10_witness :
  ∃ w', @EditMBP (Sample.collaborators false) 0x80004000 ADDRESS_COLUMN (Some "80004000")
          (Sample.world false true) = Returned w'
        ∧ MemChecks.GetMemCheck 0x80004000 (memchecks w') = None
        ∧ memchecks w' = [].
Proof.
  destruct (@C10_EditMBP_to_the_same_start_address_removes_the_watch
              (Sample.collaborators false) (Sample.world false true) 0x80004000 "80004000"
              Sample.mc_4000 eq_refl eq_refl)
    as (w' & Hret & Hget & _ & Hst & _).
  exists w'. split; [exact Hret |]. split; [exact Hget |]. rewrite Hst. reflexivity.
Defined.

(** * The further properties at concrete inputs *)

(** X1 at the second sample world: a click on the condition of the
    breakpoint drops the condition. *)
Lemma X1_witness :
  ∃ w' bp,
    @OnClicked (Sample.collaborators false)
      (Some (mkItem CONDITION_COLUMN 0x80003000 false)) Conditioned.world = Returned w'
    ∧ BreakPoints.GetBreakpoint 0x80003000 (breakpoints w') = Some bp
    ∧ TBreakPoint.condition bp = None
    ∧ TBreakPoint.break_on_hit bp = true.
Proof.
  destruct (@X1_click_on_a_breakpoint_row (Sample.collaborators false)
              Conditioned.world 0x80003000 CONDITION_COLUMN Conditioned.bp eq_refl)
    as (w' & bp & Hret & Hget & _ & _ & _ & Hbreak & _ & _ & Hcond & _);
    [discriminate | discriminate | discriminate |].
  exists w', bp. split; [exact Hret |]. split; [exact Hget |].
  split; [exact (eq_trans Hcond eq_refl) | exact (eq_trans Hbreak eq_refl)].
Defined.

(** X2 at the second sample world: a click on the Log cell of the watch whose
    two addresses are equal flips [log_on_hit] and makes it not ranged. *)
Lemma X2_witness :
  ∃ w' mbp,
    @OnClicked (Sample.collaborators false)
      (Some (mkItem LOG_COLUMN 0x80004000 true)) Conditioned.world = Returned w'
    ∧ MemChecks.GetMemCheck 0x80004000 (memchecks w') = Some mbp
    ∧ TMemCheck.log_on_hit mbp = false
    ∧ TMemCheck.is_ranged mbp = false.
Proof.
  destruct (@X2_click_on_a_memcheck_row (Sample.collaborators false)
              Conditioned.world 0x80004000 LOG_COLUMN Conditioned.mc eq_refl)
    as (w' & mbp & Hret & Hget & _ & _ & _ & _ & Hranged & _ & Hlog & _);
    [discriminate | discriminate | discriminate |].
  exists w', mbp. split; [exact Hret |]. split; [exact Hget |].
  split; [exact (eq_trans Hlog eq_refl) | exact (eq_trans Hranged eq_refl)].
Defined.

(** X3 at the first sample world: the watch of 0x80004000..0x80004010 is
    moved to 0x80004020, past its end address. *)
Lemma X3_witness :
  ∃ w' mbp,
    @EditMBP (Sample.collaborators false) 0x80004000 ADDRESS_COLUMN (Some "80004020")
      (Sample.world false true) = Returned w'
    ∧ MemChecks.GetMemCheck 0x80004020 (memchecks w') = Some mbp
    ∧ TMemCheck.end_address mbp = 0x80004010
    ∧ MemChecks.GetMemCheck 0x80004000 (memchecks w') = None.
Proof.
  destruct (@X3_EditMBP_moves_the_watch (Sample.collaborators false)
              (Sample.world false true) 0x80004000 0x80004020 "80004020" Sample.mc_4000
              eq_refl eq_refl)
    as (w' & mbp & Hret & Hget & _ & Hend & _ & Hgone & _); [discriminate |].
  exists w', mbp. split; [exact Hret |]. split; [exact Hget |].
  split; [exact (eq_trans Hend eq_refl) | exact Hgone].
Defined.

(** X4 at the first sample world: the end address of the watch is set to its
    start address, and the watch is not ranged any more. *)
Lemma X4_witness :
  ∃ w' mbp,
    @EditMBP (Sample.collaborators false) 0x80004000 END_ADDRESS_COLUMN (Some "80004000")
      (Sample.world false true) = Returned w'
    ∧ MemChecks.GetMemCheck 0x80004000 (memchecks w') = Some mbp
    ∧ TMemCheck.end_address mbp = 0x80004000
    ∧ TMemCheck.is_ranged mbp = false.
Proof.
  destruct (@X4_EditMBP_sets_the_end_address (Sample.collaborators false)
              (Sample.world false true) 0x80004000 0x80004000 "80004000" Sample.mc_4000
              eq_refl eq_refl)
    as (w' & mbp & Hret & Hget & _ & _ & Hend & Hranged & _).
  exists w', mbp. split; [exact Hret |]. split; [exact Hget |].
  split; [exact Hend | exact (eq_trans Hranged eq_refl)].
Defined.

(** X5 at the first sample world: the breakpoint is moved to 0x80003004,
    where no breakpoint is. *)
Lemma X5_witness :
  ∃ w' bp,
    @EditBreakpoint (Sample.collaborators false) 0x80003000 ADDRESS_COLUMN
      (Some "80003004") (Sample.world false true) = Returned w'
    ∧ breakpoints w' = [bp]
    ∧ BreakPoints.GetBreakpoint 0x80003004 (breakpoints w') = Some bp
    ∧ TBreakPoint.break_on_hit bp = true
    ∧ BreakPoints.GetBreakpoint 0x80003000 (breakpoints w') = None.
Proof.
  destruct (@X5_EditBreakpoint_moves_the_breakpoint (Sample.collaborators false)
              (Sample.world false true) 0x80003000 0x80003004 "80003004"
              (Sample.bp_3000 true) eq_refl eq_refl (λ _, eq_refl))
    as (w' & bp & Hret & Hst & Hget & _ & _ & Hbreak & _ & Hgone & _).
  exists w', bp. split; [exact Hret |]. split; [exact Hst |]. split; [exact Hget |].
  split; [exact (eq_trans Hbreak eq_refl) | apply Hgone; discriminate].
Defined.

(** X6 at the second sample world: a click on the Break cell of the row
    built for the breakpoint. *)
Lemma X6_witness :
  ∃ w',
    @OnClicked (Sample.collaborators false)
      (row_item (@breakpoint_row (Sample.collaborators false) Conditioned.no_symbols
                   Conditioned.bp) BREAK_COLUMN)
      Conditioned.world = Returned w'.
Proof.
  apply (@X6_click_on_a_row_of_Update_returns (Sample.collaborators false)
           Conditioned.no_symbols Conditioned.world).
  apply list_elem_of_here.
Defined.

(** X7 at the first sample world: a breakpoint is added at 0x80003100. *)
Lemma X7_witness :
  ∃ w' evs,
    @run (Sample.collaborators false) (Op_AddBP 0x80003100) (Sample.world false true)
    = Returned w'
    ∧ trace w' = (trace (Sample.world false true) ++ evs)%list
    ∧ (Forall (λ e, quiet e = true) evs
       ∨ ∃ pre, evs = (pre ++ [Emit_BreakpointsChanged; Call_Update])%list
                ∧ Forall (λ e, quiet e = true) pre).
Proof.
  eexists.
  destruct (@X7_signal_and_redraw_come_last_and_together (Sample.collaborators false)
              (Op_AddBP 0x80003100) (Sample.world false true) _ eq_refl)
    as (evs & Htrace & Hshape).
  exists evs. split; [reflexivity |]. split; [exact Htrace | exact Hshape].
Defined.

(** X8 at the second sample world: clearing leaves the file alone. *)
Lemma X8_witness :
  ∃ w',
    @run (Sample.collaborators false) Op_OnClear Conditioned.world = Returned w'
    ∧ game_ini w' = Some Conditioned.file.
Proof.
  eexists. split; [reflexivity |].
  apply (@X8_only_OnSave_writes_the_file (Sample.collaborators false) Op_OnClear
           Conditioned.world _ eq_refl).
  discriminate.
Defined.

(** X10 at the second sample world, whose file has the section of the
    breakpoints and not that of the memory checks. *)
Lemma X10_witness :
  ∃ w1 w2,
    @OnLoad (Sample.collaborators false) Conditioned.world = Returned w1
    ∧ @OnLoad (Sample.collaborators false) w1 = Returned w2
    ∧ breakpoints w2 = breakpoints w1
    ∧ memchecks w2 = memchecks w1.
Proof.
  eexists.
  destruct (@X10_OnLoad_is_idempotent (Sample.collaborators false) Conditioned.world
              _ eq_refl)
    as (w2 & Hload & Hb & Hm & _).
  exists w2. split; [reflexivity |]. split; [exact Hload |].
  split; [exact Hb | exact Hm].
Defined.

(** X11 at the first sample world, with the line format of the sample. *)
Lemma X11_witness :
  ∃ w1 w2,
    @OnSave (Sample.collaborators false) (Sample.world false true) = Returned w1
    ∧ @OnLoad (Sample.collaborators false) w1 = Returned w2
    ∧ breakpoints w2 = [Sample.bp_3000 true]
    ∧ memchecks w2 = [Sample.mc_4000].
Proof.
  apply (@X11_OnSave_then_OnLoad_restores_the_registries (Sample.collaborators false)
           (Sample.world false true)).
  - intros a. change (breakpoints (Sample.world false true)) with [Sample.bp_3000 true].
    rewrite BP_count_cons. change (BreakPoints.count a []) with 0%nat.
    destruct (decide _); lia.
  - intros a. change (memchecks (Sample.world false true)) with [Sample.mc_4000].
    rewrite MC_count_cons. change (MemChecks.count a []) with 0%nat.
    destruct (decide _); lia.
  - apply Forall_cons. split; [reflexivity | apply Forall_nil_2].
  - apply Forall_cons. split; [reflexivity | apply Forall_nil_2].
Defined.

(** X14 for a cell of 30 by 24 pixels at (10, 20) and a pixmap of 19 by 19
    pixels, which is drawn at (15, 22). *)
Lemma X14_witness :
  (paint_pixmap 10 20 30 24 None = None
   ∧ ∃ x y,
       paint_pixmap 10 20 30 24 (Some (19, 19)) = Some (x, y)
       ∧ 10 ≤ x ∧ x + 19 ≤ 10 + 30
       ∧ 20 ≤ y ∧ y + 19 ≤ 20 + 24
       ∧ 0 ≤ (10 + 30 - (x + 19)) - (x - 10) ≤ 1
       ∧ 0 ≤ (20 + 24 - (y + 19)) - (y - 20) ≤ 1
       ∧ is_int (30 - 19) ∧ is_int (24 - 19)
       ∧ is_int x ∧ is_int y)%Z.
Proof.
  apply (X14_paint_centres_the_pixmap 10 20 30 24 19 19); unfold is_int; lia.
Defined.

(** X15 at the second sample world: the row of the watch. *)
Lemma X15_witness :
  ∃ mbp,
    MemChecks.GetMemCheck 0x80004000 (@memchecks (Sample.collaborators false) Conditioned.world)
    = Some mbp
    ∧ @memcheck_row (Sample.collaborators false) Conditioned.no_symbols Conditioned.mc
      = @memcheck_row (Sample.collaborators false) Conditioned.no_symbols mbp.
Proof.
  destruct (@X15_the_roles_of_a_row_identify_its_entry (Sample.collaborators false)
              Conditioned.no_symbols Conditioned.world) as [_ Hrows].
  - intros a. change (breakpoints Conditioned.world) with [Conditioned.bp].
    rewrite BP_count_cons. change (BreakPoints.count a []) with 0%nat.
    destruct (decide _); lia.
  - intros a. change (memchecks Conditioned.world) with [Conditioned.mc].
    rewrite MC_count_cons. change (MemChecks.count a []) with 0%nat.
    destruct (decide _); lia.
  - apply (Hrows (@memcheck_row (Sample.collaborators false) Conditioned.no_symbols
                    Conditioned.mc)).
    apply list_elem_of_further, list_elem_of_here.
Defined.

(** X9 at the first sample world: the breakpoint row is deleted. *)
Lemma X9_witness :
  ∃ w',
    @OnContextMenu_Delete (Sample.collaborators false)
      (Some (mkItem TYPE_COLUMN 0x80003000 false)) (Sample.world false true) = Returned w'
    ∧ BreakPoints.GetBreakpoint 0x80003000 (breakpoints w') = None
    ∧ memchecks w' = [Sample.mc_4000].
Proof.
  destruct (@X9_context_menu_Delete (Sample.collaborators false) (Sample.world false true)
              TYPE_COLUMN 0x80003000 false)
    as (w' & Hret & Hm & Hgone & _).
  exists w'. split; [exact Hret |]. split; [exact Hgone | exact Hm].
Defined.

(** X12 at the second sample world: the condition of the breakpoint is
    edited to the empty text, which the sample parser does not accept. *)
Lemma X12_witness :
  ∃ w' bp,
    @EditBreakpoint (Sample.collaborators false) 0x80003000 CONDITION_COLUMN (Some "")
      Conditioned.world = Returned w'
    ∧ BreakPoints.GetBreakpoint 0x80003000 (breakpoints w') = Some bp
    ∧ TBreakPoint.condition bp = None.
Proof.
  destruct (@X12_what_becomes_of_a_condition_text (Sample.collaborators false)
              Conditioned.world 0x80003000 true true true true "")
    as (_ & _ & _ & Hedit).
  destruct (Hedit Conditioned.bp eq_refl) as (w' & bp & Hret & Hget & Hcond & _).
  exists w', bp. split; [exact Hret |]. split; [exact Hget |].
  exact (eq_trans Hcond eq_refl).
Defined.
